(** * CVERE: the 16-bit virtual machine, its assembler and its disassembler

    A shallow embedding of [backend/go/simulator] (vm.go, assembler.go and
    disassembler.go, concatenated in [main.go]) and the properties of the
    executor, the two-pass assembler and the disassembler.

    Conventions.
    - A Go [uint16] is a [Z] in [0, 65536); every operation that can leave
      that range is followed by [u16], the reduction modulo 2^16.
    - A Go array ([16]uint16, [32768]uint16) is a list whose length is
      fixed by the well-formedness predicate [wf_vm]; reads are list
      lookups and writes are [<[ i := v ]>].
    - A method with a pointer receiver takes the state and returns the
      new state next to its result.
    - Source text is a [string] of bytes; the embedding of the Go string
      library covers ASCII text, on which the Unicode-aware functions of
      [strings] act bytewise. *)

From Stdlib Require Import ZArith Lia Ascii String List Bool.
From stdpp Require Import base list strings gmap.

Local Open Scope Z_scope.

(** ** Machine integers *)

Definition u16 (x : Z) : Z := x mod 65536.
Definition u8 (x : Z) : Z := x mod 256.

(** [int16(x)] for a [uint16] value [x]. *)
Definition int16 (x : Z) : Z := if u16 x <? 32768 then u16 x else u16 x - 65536.

(** [int8(x)] for an integer [x]. *)
Definition int8 (x : Z) : Z := if u8 x <? 128 then u8 x else u8 x - 256.

(** Go's [int] (64 bits): wrap-around into [-2^63, 2^63). *)
Definition wrap_int (x : Z) : Z := (x + 2 ^ 63) mod 2 ^ 64 - 2 ^ 63.

(** ** vm.go *)

Module VM.

Record VM := mkVM {
  Registers : list Z;     (* [16]uint16 *)
  PC : Z;
  SP : Z;
  LR : Z;
  SR : Z;
  Memory : list Z;        (* [32768]uint16 *)
  Halted : bool;
  CycleCount : Z
}.

Record VMState := mkVMState {
  st_Registers : list Z;
  st_PC : Z;
  st_SP : Z;
  st_LR : Z;
  st_SR : Z;
  st_CycleCount : Z;
  st_Halted : bool
}.

Definition memLen : Z := 32768.

(** [len(vm.Memory)] converted to [uint16]. *)
Definition lenMemory (vm : VM) : Z := u16 (Z.of_nat (length (Memory vm))).

Definition is_u16 (x : Z) : Prop := 0 <= x < 65536.

(** What the Go types guarantee of a [VM] value. *)
Record wf_vm (vm : VM) : Prop := {
  wf_regs_len : length (Registers vm) = 16%nat;
  wf_regs : Forall is_u16 (Registers vm);
  wf_mem_len : Z.of_nat (length (Memory vm)) = memLen;
  wf_mem : Forall is_u16 (Memory vm);
  wf_PC : is_u16 (PC vm);
  wf_SP : is_u16 (SP vm);
  wf_LR : is_u16 (LR vm);
  wf_SR : is_u16 (SR vm)
}.

Definition is_u16b (x : Z) : bool := (0 <=? x) && (x <? 65536).

Definition wf_vmb (vm : VM) : bool :=
  (length (Registers vm) =? 16)%nat && forallb is_u16b (Registers vm) &&
  (Z.of_nat (length (Memory vm)) =? memLen) && forallb is_u16b (Memory vm) &&
  is_u16b (PC vm) && is_u16b (SP vm) && is_u16b (LR vm) && is_u16b (SR vm).

Definition NewVM : VM :=
  {| Registers := replicate 16 0; PC := 0; SP := 0xFFFE; LR := 0; SR := 0;
     Memory := replicate (Z.to_nat memLen) 0; Halted := false; CycleCount := 0 |}.

Definition set_Registers (r : list Z) (vm : VM) : VM :=
  mkVM r (PC vm) (SP vm) (LR vm) (SR vm) (Memory vm) (Halted vm) (CycleCount vm).
Definition set_PC (pc : Z) (vm : VM) : VM :=
  mkVM (Registers vm) pc (SP vm) (LR vm) (SR vm) (Memory vm) (Halted vm) (CycleCount vm).
Definition set_SR (sr : Z) (vm : VM) : VM :=
  mkVM (Registers vm) (PC vm) (SP vm) (LR vm) sr (Memory vm) (Halted vm) (CycleCount vm).
Definition set_Memory (m : list Z) (vm : VM) : VM :=
  mkVM (Registers vm) (PC vm) (SP vm) (LR vm) (SR vm) m (Halted vm) (CycleCount vm).
Definition set_Halted (h : bool) (vm : VM) : VM :=
  mkVM (Registers vm) (PC vm) (SP vm) (LR vm) (SR vm) (Memory vm) h (CycleCount vm).
Definition set_CycleCount (c : Z) (vm : VM) : VM :=
  mkVM (Registers vm) (PC vm) (SP vm) (LR vm) (SR vm) (Memory vm) (Halted vm) c.

(** [vm.Registers[i]] and [vm.Registers[i] = v]; [i] is a 4-bit field. *)
Definition reg (vm : VM) (i : Z) : Z := default 0 (Registers vm !! Z.to_nat i).
Definition set_reg (i v : Z) (vm : VM) : VM :=
  set_Registers (<[Z.to_nat i := v]> (Registers vm)) vm.

Definition mem (vm : VM) (a : Z) : Z := default 0 (Memory vm !! Z.to_nat a).
Definition set_mem (a v : Z) (vm : VM) : VM :=
  set_Memory (<[Z.to_nat a := v]> (Memory vm)) vm.

(** [LoadProgram]: the index [startAddr/2 + uint16(i)] is a [uint16]; an
    index past the array is a run-time panic ([None]). *)
Fixpoint LoadProgram_from (i : Z) (program : list Z) (startAddr : Z) (vm : VM)
  : option VM :=
  match program with
  | [] => Some vm
  | instruction :: rest =>
      let idx := u16 (startAddr / 2 + u16 i) in
      if idx <? Z.of_nat (length (Memory vm))
      then LoadProgram_from (i + 1) rest startAddr (set_mem idx instruction vm)
      else None
  end.

Definition LoadProgram (program : list Z) (startAddr : Z) (vm : VM) : option VM :=
  LoadProgram_from 0 program startAddr vm.

Definition Fetch (vm : VM) : Z * VM :=
  if lenMemory vm <=? PC vm / 2 then (0xFFFF, vm)
  else
    let instruction := mem vm (PC vm / 2) in
    (instruction, set_PC (u16 (PC vm + 2)) vm).

Definition UpdateFlags (result : Z) (vm : VM) : VM :=
  let vm := set_SR (Z.land (SR vm) 0xFFF0) vm in
  let vm := if result =? 0 then set_SR (Z.lor (SR vm) (Z.shiftl 1 0)) vm else vm in
  if Z.land result 0x8000 =? 0 then vm else set_SR (Z.lor (SR vm) (Z.shiftl 1 1)) vm.

(** [result] is a [uint32]. *)
Definition UpdateFlagsWithCarry (result : Z) (vm : VM) : VM :=
  let vm := UpdateFlags (u16 result) vm in
  if 0xFFFF <? result then set_SR (Z.lor (SR vm) (Z.shiftl 1 2)) vm else vm.

(** The fields of an instruction word, as [Step] extracts them. *)
Definition f_opcode (instruction : Z) : Z := Z.land (Z.shiftr instruction 12) 0xF.
Definition f_rd (instruction : Z) : Z := u8 (Z.land (Z.shiftr instruction 8) 0xF).
Definition f_rs (instruction : Z) : Z := u8 (Z.land (Z.shiftr instruction 4) 0xF).
Definition f_rt (instruction : Z) : Z := u8 (Z.land instruction 0xF).
Definition f_imm8 (instruction : Z) : Z := u8 (Z.land instruction 0xFF).
Definition f_offset (instruction : Z) : Z := u8 (Z.land instruction 0xF).
Definition f_addr12 (instruction : Z) : Z := Z.land instruction 0xFFF.

(** The common tail of the register-writing cases: write [rd], clobber
    [R0], update Z and N.  For ADD and ADDI [result] is the [uint32] sum
    of two 16-bit values, which cannot wrap. *)
Definition write_logic (rd result : Z) (vm : VM) : VM :=
  UpdateFlags result (set_reg 0 0 (set_reg rd result vm)).

Definition write_arith (rd result : Z) (vm : VM) : VM :=
  UpdateFlagsWithCarry result (set_reg 0 0 (set_reg rd (u16 result) vm)).

(** The sign extension that BEQ and BNE spell out. *)
Definition signedOffset (imm8 : Z) : Z :=
  if Z.land imm8 0x80 =? 0 then imm8 else int16 (int8 imm8).

Definition branch (imm8 : Z) (vm : VM) : VM :=
  set_PC (u16 (PC vm + signedOffset imm8 * 2)) vm.

(** The [switch opcode] of [Step]: the state after, and the error if any. *)
Definition execute (instruction : Z) (vm : VM) : VM * option string :=
  let opcode := f_opcode instruction in
  let rd := f_rd instruction in
  let rs := f_rs instruction in
  let rt := f_rt instruction in
  let imm8 := f_imm8 instruction in
  let offset := f_offset instruction in
  let addr12 := f_addr12 instruction in
  match opcode with
  | 0x0 => (vm, None)
  | 0x1 => (write_arith rd (reg vm rs + reg vm rt) vm, None)
  | 0x2 => (write_arith rd (reg vm rd + imm8) vm, None)
  | 0x3 => (write_logic rd (u16 (reg vm rs - reg vm rt)) vm, None)
  | 0x4 => (write_logic rd (Z.land (reg vm rs) (reg vm rt)) vm, None)
  | 0x5 => (write_logic rd (Z.lor (reg vm rs) (reg vm rt)) vm, None)
  | 0x6 => (write_logic rd (Z.lxor (reg vm rs) (reg vm rt)) vm, None)
  | 0x7 => (write_logic rd (Z.lxor (reg vm rs) 0xFFFF) vm, None)
  | 0x8 =>
      let shift := Z.land (reg vm rt) 0xF in
      (write_logic rd (u16 (Z.shiftl (reg vm rs) shift)) vm, None)
  | 0x9 =>
      let shift := Z.land (reg vm rt) 0xF in
      (write_logic rd (Z.shiftr (reg vm rs) shift) vm, None)
  | 0xA =>
      let address := u16 (reg vm rs + u16 (offset * 2)) / 2 in
      if address <? lenMemory vm
      then (set_reg 0 0 (set_reg rd (mem vm address) vm), None)
      else (vm, None)
  | 0xB =>
      let address := u16 (reg vm rs + u16 (offset * 2)) / 2 in
      if address <? lenMemory vm
      then (set_mem address (reg vm rd) vm, None)
      else (vm, None)
  | 0xC =>
      let value := if Z.land imm8 0x80 =? 0 then imm8 else Z.lor imm8 0xFF00 in
      (set_reg 0 0 (set_reg rd value vm), None)
  | 0xD => (set_PC addr12 vm, None)
  | 0xE => (if reg vm rd =? 0 then branch imm8 vm else vm, None)
  | 0xF =>
      if instruction =? 0xFFFF then (set_Halted true vm, None)
      else (if reg vm rd =? 0 then vm else branch imm8 vm, None)
  | _ => (vm, Some "unknown opcode"%string)
  end.

Definition Step (vm : VM) : VM * option string :=
  if Halted vm then (vm, Some "VM is halted"%string)
  else
    let '(instruction, vm) := Fetch vm in
    let vm := set_CycleCount (wrap_int (CycleCount vm + 1)) vm in
    execute instruction vm.

Definition GetState (vm : VM) : VMState :=
  mkVMState (Registers vm) (PC vm) (SP vm) (LR vm) (SR vm) (CycleCount vm) (Halted vm).

Definition Reset (vm : VM) : VM :=
  mkVM (replicate 16 0) 0 0xFFFE 0 0 (Memory vm) false 0.

(** *** Vocabulary of the statements about the executor *)

(** The contributions of a result to the Z, N and C bits of SR. *)
Definition zbit (result : Z) : Z := if result =? 0 then 1 else 0.
Definition nbit (result : Z) : Z := if Z.land result 0x8000 =? 0 then 0 else 2.
Definition cbit (result : Z) : Z := if 0xFFFF <? result then 4 else 0.

(** The byte address of LOAD and STORE, converted to a word index. *)
Definition mem_address (instruction : Z) (vm : VM) : Z :=
  u16 (reg vm (f_rs instruction) + u16 (f_offset instruction * 2)) / 2.

(** The value computed by SUB and by the logical and shift instructions. *)
Definition logic_result (instruction : Z) (vm : VM) : Z :=
  let a := reg vm (f_rs instruction) in
  let b := reg vm (f_rt instruction) in
  match f_opcode instruction with
  | 0x3 => u16 (a - b)
  | 0x4 => Z.land a b
  | 0x5 => Z.lor a b
  | 0x6 => Z.lxor a b
  | 0x7 => Z.lxor a 0xFFFF
  | 0x8 => u16 (Z.shiftl a (Z.land b 0xF))
  | 0x9 => Z.shiftr a (Z.land b 0xF)
  | _ => 0
  end.

(** The 32-bit sum computed by ADD and ADDI. *)
Definition arith_result (instruction : Z) (vm : VM) : Z :=
  match f_opcode instruction with
  | 0x1 => reg vm (f_rs instruction) + reg vm (f_rt instruction)
  | 0x2 => reg vm (f_rd instruction) + f_imm8 instruction
  | _ => 0
  end.

Definition is_logic_op (opcode : Z) : Prop := 4 <= opcode <= 9.
Definition is_arith_op (opcode : Z) : Prop := opcode = 1 \/ opcode = 2.

(** The states of the executor: a fresh machine, then any sequence of
    program loads, steps and resets. *)
Inductive reachable : VM -> Prop :=
  | reach_new : reachable NewVM
  | reach_load vm vm' program startAddr :
      reachable vm -> Forall is_u16 program ->
      LoadProgram program startAddr vm = Some vm' -> reachable vm'
  | reach_step vm : reachable vm -> reachable (fst (Step vm))
  | reach_reset vm : reachable vm -> reachable (Reset vm).

(** *** Running a program, as [simulateHandler] does *)

(** [vm.LoadProgram(code, 0)] on a fresh machine, for a program that
    fits the memory. *)
Definition load (code : list Z) : VM := default NewVM (LoadProgram code 0 NewVM).

(** The loop of [simulateHandler]: at most [maxCycles] steps, stopping at
    a halted machine or at the first error; the history has one snapshot
    per successful step. *)
Fixpoint simulate (maxCycles : nat) (vm : VM) : list VMState * VM :=
  match maxCycles with
  | O => ([], vm)
  | S n =>
      if Halted vm then ([], vm)
      else
        let '(vm', err) := Step vm in
        match err with
        | Some _ => ([], vm')
        | None => let '(h, vm'') := simulate n vm' in (GetState vm' :: h, vm'')
        end
  end.

Definition run (maxCycles : nat) (code : list Z) : VM :=
  snd (simulate maxCycles (load code)).

(** LOADI R3, 0xFF ; ADDI R3, 0x01 ; AND R1, R2, R3 ; HALT *)
Definition carry_then_and : list Z := [0xC3FF; 0x2301; 0x4123; 0xFFFF].

(** LOADI R3, 0xFF ; ADDI R3, 0x01 ; HALT *)
Definition addi_carry : list Z := [0xC3FF; 0x2301; 0xFFFF].

(** LOADI R1, 0x04 ; STORE R1, R1, 1 ; LOAD R2, R1, 1 ; HALT *)
Definition store_load : list Z := [0xC104; 0xB111; 0xA211; 0xFFFF].

End VM.

(** ** The Go library functions the assembler calls

    [strings] and [strconv], on ASCII text.  [ParseUint] and [ParseInt]
    follow the library source, including the value returned next to an
    error, which the assembler keeps while it drops the error. *)

Module GoLib.

Definition byte (c : ascii) : Z := Z.of_N (N_of_ascii c).
Definition chr (n : Z) : ascii := ascii_of_N (Z.to_N n).

(** [unicode.IsSpace] on ASCII: tab, line feed, vertical tab, form feed,
    carriage return, space. *)
Definition isSpace (c : ascii) : bool :=
  (byte c =? 32) || ((9 <=? byte c) && (byte c <=? 13)).

Definition isEmpty (s : string) : bool :=
  match s with EmptyString => true | _ => false end.

Fixpoint trimLeft (s : string) : string :=
  match s with
  | String c s' => if isSpace c then trimLeft s' else s
  | EmptyString => EmptyString
  end.

Fixpoint trimRight (s : string) : string :=
  match s with
  | EmptyString => EmptyString
  | String c s' =>
      let r := trimRight s' in
      if isSpace c && isEmpty r then EmptyString else String c r
  end.

Definition TrimSpace (s : string) : string := trimRight (trimLeft s).

(** [strings.Index(s, sep)] for a one-byte separator. *)
Fixpoint Index (sep : ascii) (s : string) : option nat :=
  match s with
  | EmptyString => None
  | String c s' =>
      if Ascii.eqb c sep then Some O else S <$> Index sep s'
  end.

Definition Contains (sep : ascii) (s : string) : bool :=
  match Index sep s with Some _ => true | None => false end.

(** [s[:n]] and [s[n:]]. *)
Fixpoint sliceTo (n : nat) (s : string) : string :=
  match n, s with
  | S n', String c s' => String c (sliceTo n' s')
  | _, _ => EmptyString
  end.

Fixpoint sliceFrom (n : nat) (s : string) : string :=
  match n, s with
  | S n', String _ s' => sliceFrom n' s'
  | _, _ => s
  end.

(** [strings.Split(s, sep)] for a one-byte separator; the result is never
    empty. *)
Fixpoint Split (sep : ascii) (s : string) : list string :=
  match s with
  | EmptyString => [EmptyString]
  | String c s' =>
      if Ascii.eqb c sep then EmptyString :: Split sep s'
      else match Split sep s' with
           | h :: t => String c h :: t
           | [] => [String c EmptyString]
           end
  end.

(** [strings.SplitN(s, sep, 2)] when [s] contains [sep]. *)
Definition SplitN2 (sep : ascii) (s : string) : string * string :=
  match Index sep s with
  | Some i => (sliceTo i s, sliceFrom (S i) s)
  | None => (s, EmptyString)
  end.

(** [strings.Fields]: the maximal runs of non-space bytes.  The helper
    returns the run that starts the string next to the later fields. *)
Fixpoint fieldsFrom (s : string) : string * list string :=
  match s with
  | EmptyString => (EmptyString, [])
  | String c s' =>
      let '(w, l) := fieldsFrom s' in
      if isSpace c then (EmptyString, if isEmpty w then l else w :: l)
      else (String c w, l)
  end.

Definition Fields (s : string) : list string :=
  let '(w, l) := fieldsFrom s in if isEmpty w then l else w :: l.

Definition upper (c : ascii) : ascii :=
  if (97 <=? byte c) && (byte c <=? 122) then chr (byte c - 32) else c.

Fixpoint ToUpper (s : string) : string :=
  match s with
  | EmptyString => EmptyString
  | String c s' => String (upper c) (ToUpper s')
  end.

Definition HasPrefix (s p : string) : bool := String.prefix p s.

(** [strings.Join(parts, "")]. *)
Definition Join (parts : list string) : string := String.concat EmptyString parts.

(** *** strconv *)

Inductive numError := ErrSyntax | ErrRange.

(** [lower(c)] of strconv: [c | ('x' - 'X')]. *)
Definition lower (c : Z) : Z := Z.lor c 32.

Definition maxUint64 : Z := 2 ^ 64 - 1.

(** The loop of [ParseUint] over the bytes of the literal, [n] the value
    so far. *)
Fixpoint parseDigits (base maxVal cutoff : Z) (s : string) (n : Z)
  : Z * option numError :=
  match s with
  | EmptyString => (n, None)
  | String ch s' =>
      let c := byte ch in
      let d :=
        if (48 <=? c) && (c <=? 57) then Some (c - 48)
        else if (97 <=? lower c) && (lower c <=? 122) then Some (lower c - 97 + 10)
        else None in
      match d with
      | None => (0, Some ErrSyntax)
      | Some d =>
          if base <=? d then (0, Some ErrSyntax)
          else if cutoff <=? n then (maxVal, Some ErrRange)
          else
            let n := n * base in
            let n1 := (n + d) mod 2 ^ 64 in
            if (n1 <? n) || (maxVal <? n1) then (maxVal, Some ErrRange)
            else parseDigits base maxVal cutoff s' n1
      end
  end.

(** [strconv.ParseUint(s, base, bitSize)] for [2 <= base <= 36] and
    [0 < bitSize <= 64]. *)
Definition ParseUint (s : string) (base bitSize : Z) : Z * option numError :=
  if isEmpty s then (0, Some ErrSyntax)
  else parseDigits base (2 ^ bitSize - 1) (maxUint64 / base + 1) s 0.

(** [strconv.ParseInt(s, base, bitSize)]. *)
Definition ParseInt (s : string) (base bitSize : Z) : Z * option numError :=
  match s with
  | EmptyString => (0, Some ErrSyntax)
  | String c0 rest =>
      let neg := Ascii.eqb c0 "-"%char in
      let s := if Ascii.eqb c0 "+"%char || neg then rest else s in
      let '(un, err) := ParseUint s base bitSize in
      match err with
      | Some ErrSyntax => (0, Some ErrSyntax)
      | _ =>
          let cutoff := 2 ^ (bitSize - 1) in
          if negb neg && (cutoff <=? un) then (cutoff - 1, Some ErrRange)
          else if neg && (cutoff <? un) then (- cutoff, Some ErrRange)
          else (if neg then - un else un, None)
      end
  end.

(** [strconv.Atoi]: [ParseInt(s, 10, 0)] with a 64-bit [int]; the fast
    path for short literals returns the same values. *)
Definition Atoi (s : string) : Z * option numError := ParseInt s 10 64.

(** *** fmt *)

Definition hexDigit (d : Z) : ascii :=
  if d <? 10 then chr (48 + d) else chr (65 + d - 10).

Fixpoint hexDigits (fuel : nat) (n : Z) (acc : string) : string :=
  match fuel with
  | O => acc
  | S fuel' =>
      let acc := String (hexDigit (n mod 16)) acc in
      if n / 16 =? 0 then acc else hexDigits fuel' (n / 16) acc
  end.

(** [%X] of an unsigned 16-bit value. *)
Definition fmtX (n : Z) : string := hexDigits 4 n EmptyString.

Fixpoint zeros (k : nat) : string :=
  match k with O => EmptyString | S k' => String "0"%char (zeros k') end.

(** [%0wX]: [%X] padded with zeros on the left to [w] digits. *)
Definition fmt0X (w : nat) (n : Z) : string :=
  let s := fmtX n in String.append (zeros (w - String.length s)) s.

Fixpoint decDigits (fuel : nat) (n : Z) (acc : string) : string :=
  match fuel with
  | O => acc
  | S fuel' =>
      let acc := String (chr (48 + n mod 10)) acc in
      if n / 10 =? 0 then acc else decDigits fuel' (n / 10) acc
  end.

(** [%d] of an [int8]. *)
Definition fmtd (n : Z) : string :=
  if n <? 0 then String "-"%char (decDigits 3 (- n) EmptyString)
  else decDigits 3 n EmptyString.

End GoLib.

(** ** assembler.go *)

(** The outcome of a Go function that returns [(T, error)]: a value, an
    error with its message, or a run-time panic (an index out of range). *)
Inductive result (A : Type) : Type :=
  | Ok (a : A)
  | Error (msg : string)
  | Panic.
Arguments Ok {A} a.
Arguments Error {A} msg.
Arguments Panic {A}.

Definition bind {A B : Type} (r : result A) (k : A -> result B) : result B :=
  match r with
  | Ok a => k a
  | Error msg => Error msg
  | Panic => Panic
  end.

Notation "'let*' x ':=' r 'in' k" := (bind r (fun x => k))
  (at level 10, x name, r at level 100, k at level 200).

Module Asm.
Import GoLib.

Record Instruction := mkInstruction {
  Label : string;
  Opcode : string;
  Operands : list string;
  Address : Z
}.

Record Assembler := mkAssembler {
  Labels : gmap string Z;
  Instructions : list Instruction;
  asmAddress : Z
}.

Definition Opcodes : gmap string Z :=
  list_to_map
    [("NOP", 0x0); ("ADD", 0x1); ("ADDI", 0x2); ("SUB", 0x3); ("AND", 0x4);
     ("OR", 0x5); ("XOR", 0x6); ("NOT", 0x7); ("SHL", 0x8); ("SHR", 0x9);
     ("LOAD", 0xA); ("STORE", 0xB); ("LOADI", 0xC); ("JMP", 0xD);
     ("BEQ", 0xE); ("BNE", 0xF); ("HALT", 0xFF)]%string.

Definition NewAssembler : Assembler := mkAssembler ∅ [] 0.

(** The operand list of a line whose fields are [parts]: the fields after
    the mnemonic are joined, split at the commas and trimmed. *)
Definition splitOperands (parts : list string) : list string :=
  match parts with
  | _ :: (_ :: _) as rest => TrimSpace <$> Split "," (Join rest)
  | _ => []
  end.

(** One iteration of the loop of [firstPass]. *)
Definition firstPassLine (a : Assembler) (line : string) : Assembler :=
  let line := match Index ";" line with
              | Some idx => sliceTo idx line
              | None => line
              end in
  let line := TrimSpace line in
  if isEmpty line then a
  else
    let '(label, a, line) :=
      if Contains ":" line then
        let '(p0, p1) := SplitN2 ":" line in
        let label := TrimSpace p0 in
        (label,
         mkAssembler (<[label := asmAddress a]> (Labels a)) (Instructions a)
                     (asmAddress a),
         TrimSpace p1)
      else (EmptyString, a, line) in
    if isEmpty line then a
    else
      let parts := Fields line in
      let opcode := ToUpper (default EmptyString (head parts)) in
      let operands := splitOperands parts in
      mkAssembler (Labels a)
        (Instructions a ++ [mkInstruction label opcode operands (asmAddress a)])
        (u16 (asmAddress a + 2)).

Definition firstPass (source : string) : Assembler :=
  foldl firstPassLine NewAssembler (Split "010" source).

Definition parseRegister (reg : string) : Z :=
  let reg := ToUpper reg in
  if HasPrefix reg "R" then u8 (fst (ParseInt (sliceFrom 1 reg) 16 32))
  else 0.

Definition parseImmediate (imm : string) : Z :=
  let imm := TrimSpace imm in
  if HasPrefix imm "0X" || HasPrefix imm "0x" then
    fst (ParseInt (sliceFrom 2 imm) 16 32)
  else if HasPrefix imm "0B" || HasPrefix imm "0b" then
    fst (ParseInt (sliceFrom 2 imm) 2 32)
  else fst (Atoi imm).

(** [instr.Operands[k]]: a panic when the list is too short. *)
Definition operand (instr : Instruction) (k : nat) : result string :=
  match Operands instr !! k with
  | Some o => Ok o
  | None => Panic
  end.

Definition oneOf (op : string) (l : list string) : bool :=
  existsb (String.eqb op) l.

Definition shl16 (x n : Z) : Z := u16 (Z.shiftl x n).

Definition encodeInstruction (labels : gmap string Z) (instr : Instruction)
  : result Z :=
  match Opcodes !! Opcode instr with
  | None => Error ("unknown opcode: " ++ Opcode instr)
  | Some opcode =>
      if String.eqb (Opcode instr) "NOP" then Ok 0x0000
      else if String.eqb (Opcode instr) "HALT" then Ok 0xFFFF
      else if oneOf (Opcode instr) ["ADD"; "SUB"; "AND"; "OR"; "XOR"; "SHL"; "SHR"] then
        let* o0 := operand instr 0 in let rd := parseRegister o0 in
        let* o1 := operand instr 1 in let rs := parseRegister o1 in
        let* o2 := operand instr 2 in let rt := parseRegister o2 in
        Ok (Z.lor (Z.lor (Z.lor (shl16 opcode 12) (shl16 rd 8)) (shl16 rs 4)) rt)
      else if oneOf (Opcode instr) ["NOT"] then
        let* o0 := operand instr 0 in let rd := parseRegister o0 in
        let* o1 := operand instr 1 in let rs := parseRegister o1 in
        Ok (Z.lor (Z.lor (shl16 opcode 12) (shl16 rd 8)) (shl16 rs 4))
      else if oneOf (Opcode instr) ["ADDI"; "LOADI"] then
        let* o0 := operand instr 0 in let rd := parseRegister o0 in
        let* o1 := operand instr 1 in let imm := Z.land (parseImmediate o1) 0xFF in
        Ok (Z.lor (Z.lor (shl16 opcode 12) (shl16 rd 8)) (u16 imm))
      else if oneOf (Opcode instr) ["LOAD"; "STORE"] then
        let* o0 := operand instr 0 in let rd := parseRegister o0 in
        let* o1 := operand instr 1 in let rs := parseRegister o1 in
        let* o2 := operand instr 2 in let offset := Z.land (parseImmediate o2) 0xF in
        Ok (Z.lor (Z.lor (Z.lor (shl16 opcode 12) (shl16 rd 8)) (shl16 rs 4))
                  (u16 offset))
      else if oneOf (Opcode instr) ["JMP"] then
        let* o0 := operand instr 0 in
        let addr := match labels !! o0 with
                    | Some labelAddr => labelAddr
                    | None => u16 (parseImmediate o0)
                    end in
        Ok (Z.lor (shl16 opcode 12) (Z.land addr 0xFFF))
      else if oneOf (Opcode instr) ["BEQ"; "BNE"] then
        let* o0 := operand instr 0 in let rc := parseRegister o0 in
        let* o1 := operand instr 1 in
        let offset := match labels !! o1 with
                      | Some labelAddr =>
                          u16 (Z.quot (int16 (u16 (labelAddr - Address instr - 2))) 2)
                      | None => u16 (parseImmediate o1)
                      end in
        Ok (Z.lor (Z.lor (shl16 opcode 12) (shl16 rc 8)) (Z.land offset 0xFF))
      else Error ("cannot encode instruction: " ++ Opcode instr)
  end%string.

Fixpoint secondPassFrom (labels : gmap string Z) (instrs : list Instruction)
  (machineCode : list Z) : result (list Z) :=
  match instrs with
  | [] => Ok machineCode
  | instr :: rest =>
      let* code := encodeInstruction labels instr in
      secondPassFrom labels rest (machineCode ++ [code])
  end.

Definition secondPass (a : Assembler) : result (list Z) :=
  secondPassFrom (Labels a) (Instructions a) [].

(** [Assemble]: the code, next to the assembler the first pass leaves
    (the handler reads its label table). *)
Definition Assemble (source : string) : result (list Z) * Assembler :=
  let a := firstPass source in (secondPass a, a).

End Asm.

(** ** disassembler.go *)

Module Disasm.
Import GoLib.
Local Open Scope string_scope.

Record DisassembledInstruction := mkDisassembled {
  Address : Z;
  MachineCode : Z;
  Mnemonic : string;
  Operands : string;
  Comment : string
}.

Definition R (n : Z) : string := "R" ++ fmtX n.

(** The [switch opcode] of [disassembleInstruction]: mnemonic, operand
    text and comment. *)
Definition decodeText (instruction : Z) : string * string * string :=
  let opcode := Z.land (Z.shiftr instruction 12) 0xF in
  let rd := Z.land (Z.shiftr instruction 8) 0xF in
  let rs := Z.land (Z.shiftr instruction 4) 0xF in
  let rt := Z.land instruction 0xF in
  let imm8 := Z.land instruction 0xFF in
  let addr12 := Z.land instruction 0xFFF in
  match opcode with
  | 0x1 =>
      ("ADD", R rd ++ ", " ++ R rs ++ ", " ++ R rt,
       R rd ++ " = " ++ R rs ++ " + " ++ R rt)
  | 0x2 =>
      ("ADDI", R rd ++ ", 0x" ++ fmt0X 2 imm8,
       R rd ++ " = " ++ R rd ++ " + 0x" ++ fmt0X 2 imm8)
  | 0x3 =>
      ("SUB", R rd ++ ", " ++ R rs ++ ", " ++ R rt,
       R rd ++ " = " ++ R rs ++ " - " ++ R rt)
  | 0xC =>
      ("LOADI", R rd ++ ", 0x" ++ fmt0X 2 imm8,
       R rd ++ " = 0x" ++ fmt0X 2 imm8)
  | 0xD => ("JMP", "0x" ++ fmt0X 3 addr12, "PC = 0x" ++ fmt0X 3 addr12)
  | 0xE => ("BEQ", R rd ++ ", " ++ fmtd (int8 imm8), "Branch if zero")
  | 0xF => ("BNE", R rd ++ ", " ++ fmtd (int8 imm8), "Branch if not zero")
  | _ => ("UNKNOWN_" ++ fmtX opcode, "", "Unknown opcode: 0x" ++ fmtX opcode)
  end%Z.

Definition disassembleInstruction (instruction address : Z)
  : DisassembledInstruction :=
  if (instruction =? 0x0000)%Z then
    mkDisassembled address instruction "NOP" "" "No operation"
  else if (instruction =? 0xFFFF)%Z then
    mkDisassembled address instruction "HALT" "" "Stop execution"
  else
    let '(mnemonic, operands, comment) := decodeText instruction in
    mkDisassembled address instruction mnemonic operands comment.

Fixpoint Disassemble (machineCode : list Z) (startAddress : Z)
  : list DisassembledInstruction :=
  match machineCode with
  | [] => []
  | instruction :: rest =>
      disassembleInstruction instruction startAddress
      :: Disassemble rest (u16 (startAddress + 2))
  end.

End Disasm.

(** ** Vocabulary of the statements about the assembler *)

Module AsmSpec.
Import GoLib Asm.
Local Open Scope string_scope.

Definition newline : string := String "010" "".

(** The number of operands the encoder reads for a mnemonic of the
    opcode table. *)
Definition arity (op : string) : option nat :=
  if oneOf op ["NOP"; "HALT"] then Some 0%nat
  else if oneOf op ["JMP"] then Some 1%nat
  else if oneOf op ["NOT"; "ADDI"; "LOADI"; "BEQ"; "BNE"] then Some 2%nat
  else if oneOf op ["ADD"; "SUB"; "AND"; "OR"; "XOR"; "SHL"; "SHR"; "LOAD"; "STORE"]
       then Some 3%nat
  else None.

(** The offset of a branch at [addr] to [target], as the encoder
    computes it: a 16-bit difference, read as signed, halved. *)
Definition branchOffset (target addr : Z) : Z :=
  Z.quot (int16 (u16 (target - addr - 2))) 2.

(** S6 of the specification. *)
Definition jmp_nowhere : string := "JMP nowhere" ++ newline ++ "HALT".

(** A BEQ at address 0 whose target is 256 instructions further. *)
Definition far_branch : string :=
  "BEQ R1, far" ++ newline ++
  String.concat "" (replicate 255 ("NOP" ++ newline)) ++
  "far: HALT".

Definition short_add : string := "ADD R1, R2".

(** *** The round trip through the disassembler *)

(** The values the operands of an instruction record denote: the number
    of a register, an immediate, the address of a JMP, the offset of a
    branch (computed from the label table when the operand is a label).
    [None] when an operand is missing or the mnemonic is unknown. *)
Definition operandValues (labels : gmap string Z) (instr : Instruction)
  : option (list Z) :=
  let op := Opcode instr in
  let regv k := parseRegister <$> Operands instr !! k in
  let immv k := parseImmediate <$> Operands instr !! k in
  if oneOf op ["NOP"; "HALT"] then Some []
  else if oneOf op ["ADD"; "SUB"; "AND"; "OR"; "XOR"; "SHL"; "SHR"] then
    a ← regv 0%nat; b ← regv 1%nat; c ← regv 2%nat; Some [a; b; c]
  else if oneOf op ["NOT"] then
    a ← regv 0%nat; b ← regv 1%nat; Some [a; b]
  else if oneOf op ["ADDI"; "LOADI"] then
    a ← regv 0%nat; i ← immv 1%nat; Some [a; i]
  else if oneOf op ["LOAD"; "STORE"] then
    a ← regv 0%nat; b ← regv 1%nat; c ← immv 2%nat; Some [a; b; c]
  else if oneOf op ["JMP"] then
    o ← Operands instr !! 0%nat;
    Some [match labels !! o with
          | Some target => target
          | None => parseImmediate o
          end]
  else if oneOf op ["BEQ"; "BNE"] then
    a ← regv 0%nat; o ← Operands instr !! 1%nat;
    Some [a; match labels !! o with
             | Some target => branchOffset target (Asm.Address instr)
             | None => parseImmediate o
             end]
  else None.

Definition isReg (a : Z) : bool := (0 <=? a)%Z && (a <? 16)%Z.

(** The instructions the round trip is stated for: a mnemonic the
    disassembler decodes, registers R0..RF, an immediate of 8 bits, a jump
    address of 12 bits, a branch offset of 8 signed bits; and not the BNE
    on RF with offset -1, whose code word is the word of HALT. *)
Definition inField (op : string) (vals : list Z) : bool :=
  match vals with
  | [] => oneOf op ["NOP"; "HALT"]
  | [t] => oneOf op ["JMP"] && (0 <=? t)%Z && (t <=? 0xFFF)%Z
  | [a; v] =>
      isReg a &&
      (if oneOf op ["ADDI"; "LOADI"] then (0 <=? v)%Z && (v <=? 0xFF)%Z
       else if oneOf op ["BEQ"; "BNE"] then
         (-128 <=? v)%Z && (v <=? 127)%Z &&
         negb (String.eqb op "BNE" && (a =? 15)%Z && (v =? -1)%Z)
       else false)
  | [a; b; c] => oneOf op ["ADD"; "SUB"] && isReg a && isReg b && isReg c
  | _ => false
  end.

Definition roundTrips (labels : gmap string Z) (instr : Instruction) : bool :=
  match operandValues labels instr with
  | Some vals => inField (Opcode instr) vals
  | None => false
  end.

(** The instruction records the first pass reads from the text of a
    disassembled instruction. *)
Definition readBack (d : Disasm.DisassembledInstruction) : list Instruction :=
  Instructions (firstPass (Disasm.Mnemonic d ++ " " ++ Disasm.Operands d)).

(** A disassembled instruction [d] has the mnemonic [op] and reads back
    as one record with the operand values [vals]. *)
Definition sameAs (op : string) (vals : option (list Z))
  (d : Disasm.DisassembledInstruction) : Prop :=
  Disasm.Mnemonic d = op /\
  exists i', readBack d = [i'] /\ Opcode i' = op /\ operandValues ∅ i' = vals.

Definition sameAsb (op : string) (vals : list Z) (w : Z) : bool :=
  let d := Disasm.disassembleInstruction w 0 in
  String.eqb (Disasm.Mnemonic d) op &&
  match readBack d with
  | [i'] => String.eqb (Opcode i') op &&
            bool_decide (operandValues ∅ i' = Some vals)
  | _ => false
  end.

(** The code words of the instructions of [inField], from their values. *)
Definition word_rrr (opcode a b c : Z) : Z :=
  Z.lor (Z.lor (Z.lor (shl16 opcode 12) (shl16 a 8)) (shl16 b 4)) c.
Definition word_ri (opcode a v : Z) : Z :=
  Z.lor (Z.lor (shl16 opcode 12) (shl16 a 8)) (u16 (Z.land v 0xFF)).
Definition word_jmp (t : Z) : Z := Z.lor 0xD000 (Z.land t 0xFFF).
Definition word_branch (opcode a v : Z) : Z :=
  Z.lor (Z.lor (shl16 opcode 12) (shl16 a 8)) (Z.land (u16 v) 0xFF).

Definition check_rrr (op : string) (opcode : Z) : bool :=
  forallb (fun a => forallb (fun b => forallb (fun c =>
    sameAsb op [a; b; c] (word_rrr opcode a b c))
    (seqZ 0 16)) (seqZ 0 16)) (seqZ 0 16).
Definition check_ri (op : string) (opcode : Z) : bool :=
  forallb (fun a => forallb (fun v =>
    sameAsb op [a; v] (word_ri opcode a v)) (seqZ 0 256)) (seqZ 0 16).
Definition check_jmp : bool :=
  forallb (fun t => sameAsb "JMP" [t] (word_jmp t)) (seqZ 0 4096).
Definition check_branch (op : string) (opcode : Z) : bool :=
  forallb (fun a => forallb (fun v =>
    (String.eqb op "BNE" && (a =? 15)%Z && (v =? -1)%Z) ||
    sameAsb op [a; v] (word_branch opcode a v)) (seqZ (-128) 256)) (seqZ 0 16).

(** A BNE on RF whose target is its own address: the offset is -1. *)
Definition bne_self : string := "x: BNE RF, x".

Definition and_line : string := "AND R1, R2, R3".

(** S4 of the specification. *)
Definition forward_branch : string :=
  "    LOADI R1, 0" ++ newline ++
  "    BEQ R1, skip" ++ newline ++
  "    LOADI R2, 1" ++ newline ++
  "skip:" ++ newline ++
  "    HALT".

End AsmSpec.

(** ** Vocabulary of the further statements *)

Module MoreSpec.
Import GoLib Asm AsmSpec.
Local Open Scope string_scope.

(** The state after [k] calls of [Step]. *)
Definition steps (k : nat) (vm : VM.VM) : VM.VM :=
  Nat.iter k (fun v => fst (VM.Step v)) vm.

(** The entries of [Opcodes], as a list. *)
Definition opcodeTable : list (string * Z) :=
  [("NOP", 0x0); ("ADD", 0x1); ("ADDI", 0x2); ("SUB", 0x3); ("AND", 0x4);
   ("OR", 0x5); ("XOR", 0x6); ("NOT", 0x7); ("SHL", 0x8); ("SHR", 0x9);
   ("LOAD", 0xA); ("STORE", 0xB); ("LOADI", 0xC); ("JMP", 0xD);
   ("BEQ", 0xE); ("BNE", 0xF); ("HALT", 0xFF)]%Z.

(** What the first pass keeps true of its state: the next address is
    twice the number of instructions, the instruction of index [k] is at
    the address [2k], and a label is the address of an instruction or the
    address after the last one (16-bit arithmetic throughout). *)
Definition layout (a : Assembler) : Prop :=
  asmAddress a = u16 (2 * Z.of_nat (length (Instructions a))) /\
  (forall k i, Instructions a !! k = Some i ->
     Asm.Address i = u16 (2 * Z.of_nat k)) /\
  (forall l v, Labels a !! l = Some v ->
     exists j, (j <= length (Instructions a))%nat /\ v = u16 (2 * Z.of_nat j)).

(** The words the disassembler has a case for: 0x0000 (NOP), and the
    opcodes of ADD, ADDI, SUB, LOADI, JMP, BEQ and BNE (0xFFFF, HALT, has
    the opcode of BNE). *)
Definition isDecoded (w : Z) : bool :=
  (w =? 0)%Z ||
  existsb (Z.eqb (VM.f_opcode w)) [0x1; 0x2; 0x3; 0xC; 0xD; 0xE; 0xF]%Z.

(** Disassemble a word, read the text back with the first pass, and
    encode the record. *)
Definition reassemble (w : Z) : result Z :=
  match readBack (Disasm.disassembleInstruction w 0) with
  | [i] => encodeInstruction ∅ i
  | _ => Panic
  end.

Definition reassembles (w : Z) : bool :=
  match reassemble w with
  | Ok w' => (w' =? w)%Z
  | _ => false
  end.

(** The check of [reassembles] on the 4096 words of the opcode [c]. *)
Definition check_reassemble (c : Z) : bool :=
  forallb reassembles (seqZ (c * 4096) 4096).

(** An opcode, a register and 8 low bits, as the encoder packs them. *)
Definition word_imm (c a m : Z) : Z := Z.lor (Z.lor (shl16 c 12) (shl16 a 8)) m.

(** The executor reads back the fields the encoder packed. *)
Definition fields_rrr_ok (c a b d : Z) : bool :=
  let w := word_rrr c a b d in
  (VM.f_opcode w =? c)%Z && (VM.f_rd w =? a)%Z && (VM.f_rs w =? b)%Z &&
  (VM.f_rt w =? d)%Z.

Definition fields_imm_ok (c a m : Z) : bool :=
  let w := word_imm c a m in
  (VM.f_opcode w =? c)%Z && (VM.f_rd w =? a)%Z && (VM.f_imm8 w =? m)%Z.

(** The operation of a three-register mnemonic on two 16-bit values. *)
Definition alu (op : string) (x y : Z) : Z :=
  if String.eqb op "ADD" then u16 (x + y)
  else if String.eqb op "SUB" then u16 (x - y)
  else if String.eqb op "AND" then Z.land x y
  else if String.eqb op "OR" then Z.lor x y
  else if String.eqb op "XOR" then Z.lxor x y
  else if String.eqb op "SHL" then u16 (Z.shiftl x (Z.land y 0xF))
  else if String.eqb op "SHR" then Z.shiftr x (Z.land y 0xF)
  else 0%Z.

(** The same operation, by opcode. *)
Definition aluOp (c x y : Z) : Z :=
  match c with
  | 0x1 => u16 (x + y)
  | 0x3 => u16 (x - y)
  | 0x4 => Z.land x y
  | 0x5 => Z.lor x y
  | 0x6 => Z.lxor x y
  | 0x8 => u16 (Z.shiftl x (Z.land y 0xF))
  | 0x9 => Z.shiftr x (Z.land y 0xF)
  | _ => 0
  end%Z.

(** *** Programs the statements are tried on *)

(** LOADI R1, 5 ; SUB R2, R1, R1 ; HALT *)
Definition sub_self : list Z := [0xC105; 0x3211; 0xFFFF]%Z.

(** LOADI R1, 5 ; LOADI R2, 3 ; AND R3, R1, R2 ; HALT *)
Definition and_regs : list Z := [0xC105; 0xC203; 0x4312; 0xFFFF]%Z.

(** The code of [forward_branch]. *)
Definition forward_branch_code : list Z := [0xC100; 0xE101; 0xC201; 0xFFFF]%Z.

(** JMP end ; NOP ; end: HALT *)
Definition jump_over : list Z := [0xD004; 0x0000; 0xFFFF]%Z.

(** LOADI R1, -1 ; HALT *)
Definition loadi_minus_one : list Z := [0xC1FF; 0xFFFF]%Z.

(** LOADI R3, 0xFF ; ADDI R3, 0x01 ; LOADI R1, 0x2A ; HALT *)
Definition carry_then_loadi : list Z := [0xC3FF; 0x2301; 0xC12A; 0xFFFF]%Z.

End MoreSpec.

(** * Properties of the executor *)

Section Executor.
Import VM.

(** ** Bit-level helpers *)

Lemma land_mask_range x n : 0 <= n -> 0 <= Z.land x (Z.ones n) < 2 ^ n.
Proof. intros Hn. rewrite Z.land_ones by done. apply Z.mod_pos_bound. lia. Qed.

Lemma land_0xF x : 0 <= Z.land x 0xF < 16.
Proof. apply (land_mask_range x 4). lia. Qed.

Lemma land_0xFF x : 0 <= Z.land x 0xFF < 256.
Proof. apply (land_mask_range x 8). lia. Qed.

Lemma land_0xFFF x : 0 <= Z.land x 0xFFF < 4096.
Proof. apply (land_mask_range x 12). lia. Qed.

Lemma u16_range x : is_u16 (u16 x).
Proof. unfold is_u16, u16. apply Z.mod_pos_bound. lia. Qed.

Lemma u16_id x : is_u16 x -> u16 x = x.
Proof. unfold is_u16, u16. intros. by apply Z.mod_small. Qed.

Lemma u8_small x : 0 <= x < 256 -> u8 x = x.
Proof. unfold u8. intros. by apply Z.mod_small. Qed.

Lemma is_u16_bits x : is_u16 x <-> Z.land x 0xFFFF = x.
Proof.
  change 0xFFFF with (Z.ones 16). rewrite Z.land_ones by lia.
  unfold is_u16. split.
  - intros. by apply Z.mod_small.
  - intros <-. apply Z.mod_pos_bound. lia.
Qed.

Lemma is_u16_land x y : is_u16 x -> is_u16 (Z.land x y).
Proof.
  rewrite !is_u16_bits. intros H. rewrite <- H at 2.
  rewrite <- !Z.land_assoc. f_equal. apply Z.land_comm.
Qed.

Lemma is_u16_lor x y : is_u16 x -> is_u16 y -> is_u16 (Z.lor x y).
Proof.
  rewrite !is_u16_bits. intros Hx Hy.
  rewrite Z.land_lor_distr_l. by rewrite Hx, Hy.
Qed.

Lemma is_u16_lxor x y : is_u16 x -> is_u16 y -> is_u16 (Z.lxor x y).
Proof.
  rewrite !is_u16_bits. intros Hx Hy. apply Z.bits_inj'. intros n Hn.
  assert (Hxn := f_equal (fun z => Z.testbit z n) Hx).
  assert (Hyn := f_equal (fun z => Z.testbit z n) Hy).
  cbv beta in Hxn, Hyn. rewrite Z.land_spec in Hxn, Hyn.
  rewrite Z.land_spec, Z.lxor_spec.
  destruct (Z.testbit x n), (Z.testbit y n), (Z.testbit 65535 n); done.
Qed.

Lemma is_u16_shiftr x n : is_u16 x -> 0 <= n -> is_u16 (Z.shiftr x n).
Proof.
  unfold is_u16. intros Hx Hn. rewrite Z.shiftr_div_pow2 by done.
  assert (0 < 2 ^ n) by (apply Z.pow_pos_nonneg; lia). split.
  - apply Z.div_pos; lia.
  - apply Z.le_lt_trans with x; [|lia]. apply Z.div_le_upper_bound; nia.
Qed.

(** ** Field ranges and the case analysis on the opcode *)

Lemma f_opcode_range i : 0 <= f_opcode i < 16.
Proof. apply land_0xF. Qed.

Lemma f_rd_range i : 0 <= f_rd i < 16.
Proof. unfold f_rd. pose proof (land_0xF (Z.shiftr i 8)). rewrite u8_small; lia. Qed.

Lemma f_rs_range i : 0 <= f_rs i < 16.
Proof. unfold f_rs. pose proof (land_0xF (Z.shiftr i 4)). rewrite u8_small; lia. Qed.

Lemma f_rt_range i : 0 <= f_rt i < 16.
Proof. unfold f_rt. pose proof (land_0xF i). rewrite u8_small; lia. Qed.

Lemma f_offset_range i : 0 <= f_offset i < 16.
Proof. apply f_rt_range. Qed.

Lemma f_imm8_range i : 0 <= f_imm8 i < 256.
Proof. unfold f_imm8. pose proof (land_0xFF i). rewrite u8_small; lia. Qed.

Lemma f_addr12_range i : 0 <= f_addr12 i < 4096.
Proof. apply land_0xFFF. Qed.

Lemma f_opcode_cases i :
  f_opcode i = 0 \/ f_opcode i = 1 \/ f_opcode i = 2 \/ f_opcode i = 3 \/
  f_opcode i = 4 \/ f_opcode i = 5 \/ f_opcode i = 6 \/ f_opcode i = 7 \/
  f_opcode i = 8 \/ f_opcode i = 9 \/ f_opcode i = 10 \/ f_opcode i = 11 \/
  f_opcode i = 12 \/ f_opcode i = 13 \/ f_opcode i = 14 \/ f_opcode i = 15.
Proof. pose proof (f_opcode_range i). lia. Qed.

(** ** Frame lemmas for the setters *)

Lemma reg_range vm i : wf_vm vm -> is_u16 (reg vm i).
Proof.
  intros Hwf. unfold reg. destruct (Registers vm !! Z.to_nat i) as [x|] eqn:E.
  - simpl. eapply Forall_lookup_1; [apply (wf_regs _ Hwf) | exact E].
  - simpl. unfold is_u16. lia.
Qed.

Lemma mem_range vm a : wf_vm vm -> is_u16 (mem vm a).
Proof.
  intros Hwf. unfold mem. destruct (Memory vm !! Z.to_nat a) as [x|] eqn:E.
  - simpl. eapply Forall_lookup_1; [apply (wf_mem _ Hwf) | exact E].
  - simpl. unfold is_u16. lia.
Qed.

Lemma lenMemory_wf vm : wf_vm vm -> lenMemory vm = 32768.
Proof. intros Hwf. unfold lenMemory. by rewrite (wf_mem_len _ Hwf). Qed.

Lemma wf_set_reg i v vm : wf_vm vm -> is_u16 v -> wf_vm (set_reg i v vm).
Proof.
  intros [] Hv. split; simpl; try done.
  - by rewrite length_insert.
  - by apply Forall_insert.
Qed.

Lemma wf_set_mem a v vm : wf_vm vm -> is_u16 v -> wf_vm (set_mem a v vm).
Proof.
  intros [] Hv. split; simpl; try done.
  - by rewrite length_insert.
  - by apply Forall_insert.
Qed.

Lemma wf_set_PC pc vm : wf_vm vm -> is_u16 pc -> wf_vm (set_PC pc vm).
Proof. intros [] Hv. by split. Qed.

Lemma wf_set_SR sr vm : wf_vm vm -> is_u16 sr -> wf_vm (set_SR sr vm).
Proof. intros [] Hv. by split. Qed.

Lemma wf_set_Halted h vm : wf_vm vm -> wf_vm (set_Halted h vm).
Proof. intros []. by split. Qed.

Lemma wf_set_CycleCount c vm : wf_vm vm -> wf_vm (set_CycleCount c vm).
Proof. intros []. by split. Qed.

Lemma reg_set_reg_eq i v vm :
  (Z.to_nat i < length (Registers vm))%nat -> reg (set_reg i v vm) i = v.
Proof. intros H. unfold reg, set_reg. simpl. by rewrite list_lookup_insert_eq. Qed.

Lemma reg_set_reg_ne i j v vm :
  Z.to_nat i <> Z.to_nat j -> reg (set_reg i v vm) j = reg vm j.
Proof. intros H. unfold reg, set_reg. simpl. by rewrite list_lookup_insert_ne. Qed.

(** Writing [rd] and then clobbering R0 leaves R0 = 0. *)
Lemma reg0_clobber rd v vm :
  wf_vm vm -> reg (set_reg 0 0 (set_reg rd v vm)) 0 = 0.
Proof.
  intros Hwf. apply reg_set_reg_eq. simpl.
  rewrite length_insert, (wf_regs_len _ Hwf). simpl. lia.
Qed.

(** ** The status register after a flag update *)

Lemma UpdateFlags_SR result vm :
  SR (UpdateFlags result vm) =
  Z.lor (Z.lor (Z.land (SR vm) 0xFFF0) (zbit result)) (nbit result).
Proof.
  unfold UpdateFlags, zbit, nbit.
  destruct (result =? 0), (Z.land result 32768 =? 0); simpl;
    rewrite ?Z.lor_0_r; reflexivity.
Qed.

Lemma UpdateFlags_frame result vm :
  UpdateFlags result vm = set_SR (SR (UpdateFlags result vm)) vm.
Proof.
  unfold UpdateFlags.
  destruct (result =? 0), (Z.land result 32768 =? 0); reflexivity.
Qed.

Lemma UpdateFlagsWithCarry_SR result vm :
  SR (UpdateFlagsWithCarry result vm) =
  Z.lor (Z.lor (Z.lor (Z.land (SR vm) 0xFFF0) (zbit (u16 result)))
               (nbit (u16 result))) (cbit result).
Proof.
  unfold UpdateFlagsWithCarry, cbit.
  destruct (65535 <? result); simpl; rewrite UpdateFlags_SR;
    rewrite ?Z.lor_0_r; reflexivity.
Qed.

Lemma UpdateFlagsWithCarry_frame result vm :
  UpdateFlagsWithCarry result vm = set_SR (SR (UpdateFlagsWithCarry result vm)) vm.
Proof.
  unfold UpdateFlagsWithCarry.
  destruct (65535 <? result); rewrite UpdateFlags_frame; reflexivity.
Qed.

Lemma zbit_u16 r : is_u16 (zbit r).
Proof. unfold zbit, is_u16. destruct (r =? 0); lia. Qed.

Lemma nbit_u16 r : is_u16 (nbit r).
Proof. unfold nbit, is_u16. destruct (Z.land r 32768 =? 0); lia. Qed.

Lemma cbit_u16 r : is_u16 (cbit r).
Proof. unfold cbit, is_u16. destruct (65535 <? r); lia. Qed.

Lemma wf_UpdateFlags r vm : wf_vm vm -> wf_vm (UpdateFlags r vm).
Proof.
  intros Hwf. rewrite UpdateFlags_frame. apply wf_set_SR; [done|].
  rewrite UpdateFlags_SR. pose proof (wf_SR _ Hwf).
  auto using is_u16_lor, is_u16_land, zbit_u16, nbit_u16.
Qed.

Lemma wf_UpdateFlagsWithCarry r vm : wf_vm vm -> wf_vm (UpdateFlagsWithCarry r vm).
Proof.
  intros Hwf. rewrite UpdateFlagsWithCarry_frame. apply wf_set_SR; [done|].
  rewrite UpdateFlagsWithCarry_SR. pose proof (wf_SR _ Hwf).
  auto 6 using is_u16_lor, is_u16_land, zbit_u16, nbit_u16, cbit_u16.
Qed.

(** The three flag bits of the updated status register. *)
Lemma flags_bit0 sr r z n c :
  z = zbit r -> (n = 0 \/ n = 2) -> (c = 0 \/ c = 4) ->
  Z.testbit (Z.lor (Z.lor (Z.lor (Z.land sr 0xFFF0) z) n) c) 0 = (r =? 0).
Proof.
  intros -> Hn Hc. rewrite !Z.lor_spec, Z.land_spec. unfold zbit.
  destruct Hn as [-> | ->], Hc as [-> | ->], (r =? 0); simpl;
    rewrite ?andb_false_r; reflexivity.
Qed.

Lemma nbit_testbit r : Z.testbit (nbit r) 1 = Z.testbit r 15.
Proof.
  unfold nbit. destruct (Z.land r 32768 =? 0) eqn:E.
  - apply Z.eqb_eq in E.
    assert (H := f_equal (fun z => Z.testbit z 15) E). cbv beta in H.
    rewrite Z.land_spec in H.
    change (Z.testbit 32768 15) with true in H. rewrite andb_true_r in H.
    rewrite H. reflexivity.
  - apply Z.eqb_neq in E. destruct (Z.testbit r 15) eqn:B; [reflexivity|].
    exfalso. apply E. apply Z.bits_inj'. intros k Hk.
    rewrite Z.land_spec, Z.bits_0.
    destruct (Z.eq_dec k 15) as [-> | Hne].
    + rewrite B. reflexivity.
    + change 32768 with (2 ^ 15). rewrite Z.pow2_bits_false by lia.
      apply andb_false_r.
Qed.

(** ** Fetch and the cases of [execute] *)

Lemma pc_index_in_range pc : is_u16 pc -> 0 <= pc / 2 < 32768.
Proof. unfold is_u16. intros. split; [apply Z.div_pos | apply Z.div_lt_upper_bound]; lia. Qed.

Lemma Fetch_wf vm :
  wf_vm vm -> Fetch vm = (mem vm (PC vm / 2), set_PC (u16 (PC vm + 2)) vm).
Proof.
  intros Hwf. unfold Fetch. rewrite (lenMemory_wf _ Hwf).
  pose proof (pc_index_in_range _ (wf_PC _ Hwf)).
  destruct (Z.leb_spec 32768 (PC vm / 2)); [lia | reflexivity].
Qed.

Lemma mem_address_range i vm : 0 <= mem_address i vm < 32768.
Proof. unfold mem_address. apply pc_index_in_range, u16_range. Qed.

Ltac by_opcode i H :=
  unfold execute, logic_result, arith_result in *;
  destruct (f_opcode_cases i) as
    [H|[H|[H|[H|[H|[H|[H|[H|[H|[H|[H|[H|[H|[H|[H|H]]]]]]]]]]]]]]];
  rewrite H in *; cbv beta iota zeta.

Lemma execute_logic i vm :
  3 <= f_opcode i <= 9 ->
  execute i vm = (write_logic (f_rd i) (logic_result i vm) vm, None).
Proof. intros Hop. by_opcode i H; try lia; reflexivity. Qed.

Lemma execute_arith i vm :
  is_arith_op (f_opcode i) ->
  execute i vm = (write_arith (f_rd i) (arith_result i vm) vm, None).
Proof. unfold is_arith_op. intros Hop. by_opcode i H; try lia; reflexivity. Qed.

Lemma execute_no_error i vm : snd (execute i vm) = None.
Proof.
  by_opcode i H; try reflexivity.
  - destruct (_ <? _); reflexivity.
  - destruct (_ <? _); reflexivity.
  - destruct (_ =? _); reflexivity.
Qed.

Lemma logic_result_range i vm : wf_vm vm -> is_u16 (logic_result i vm).
Proof.
  intros Hwf.
  pose proof (reg_range vm (f_rs i) Hwf). pose proof (reg_range vm (f_rt i) Hwf).
  pose proof (land_0xF (reg vm (f_rt i))).
  assert (is_u16 65535) by (unfold is_u16; lia).
  assert (is_u16 0) by (unfold is_u16; lia).
  by_opcode i Hop;
    auto using u16_range, is_u16_land, is_u16_lor, is_u16_lxor.
  apply is_u16_shiftr; [done | lia].
Qed.

Lemma wf_write_logic rd r vm : wf_vm vm -> is_u16 r -> wf_vm (write_logic rd r vm).
Proof.
  intros Hwf Hr. unfold write_logic.
  apply wf_UpdateFlags, wf_set_reg; [apply wf_set_reg|]; done.
Qed.

Lemma wf_write_arith rd r vm : wf_vm vm -> wf_vm (write_arith rd r vm).
Proof.
  intros Hwf. unfold write_arith.
  apply wf_UpdateFlagsWithCarry, wf_set_reg; [apply wf_set_reg|]; try done.
  apply u16_range.
Qed.

Lemma wf_branch imm8 vm : wf_vm vm -> wf_vm (branch imm8 vm).
Proof. intros. apply wf_set_PC; [done | apply u16_range]. Qed.

Lemma wf_execute i vm : wf_vm vm -> wf_vm (fst (execute i vm)).
Proof.
  intros Hwf.
  destruct (Z_le_dec 3 (f_opcode i)) as [H3|H3];
    [destruct (Z_le_dec (f_opcode i) 9) as [H9|H9] |].
  { rewrite execute_logic by lia. simpl.
    apply wf_write_logic; [done | by apply logic_result_range]. }
  all: assert (is_u16 0) by (unfold is_u16; lia).
  all: pose proof (f_imm8_range i); pose proof (f_addr12_range i).
  all: by_opcode i Hop; simpl; try lia; auto using wf_write_arith.
  - destruct (_ <? _); simpl; [|done].
    apply wf_set_reg; [apply wf_set_reg|]; auto using mem_range.
  - destruct (_ <? _); simpl; [|done].
    apply wf_set_mem; auto using reg_range.
  - apply wf_set_reg; [apply wf_set_reg|]; auto.
    destruct (_ =? _); [unfold is_u16; lia|].
    apply is_u16_lor; unfold is_u16; lia.
  - apply wf_set_PC; [done | unfold is_u16; lia].
  - destruct (_ =? _); auto using wf_branch.
  - destruct (i =? 65535); simpl; [by apply wf_set_Halted|].
    destruct (_ =? _); auto using wf_branch.
Qed.

Lemma Step_running vm :
  wf_vm vm -> Halted vm = false ->
  Step vm = execute (mem vm (PC vm / 2))
              (set_CycleCount (wrap_int (CycleCount vm + 1))
                 (set_PC (u16 (PC vm + 2)) vm)).
Proof. intros Hwf Hh. unfold Step. rewrite Hh, (Fetch_wf _ Hwf). reflexivity. Qed.

Lemma wf_Step vm : wf_vm vm -> wf_vm (fst (Step vm)).
Proof.
  intros Hwf. destruct (Halted vm) eqn:Hh.
  - unfold Step. rewrite Hh. exact Hwf.
  - rewrite (Step_running _ Hwf Hh).
    apply wf_execute, wf_set_CycleCount, wf_set_PC; [done | apply u16_range].
Qed.

Lemma wf_vmb_sound vm : wf_vmb vm = true -> wf_vm vm.
Proof.
  unfold wf_vmb. rewrite !andb_true_iff.
  intros [[[[[[[H1 H2] H3] H4] H5] H6] H7] H8].
  assert (Hb : forall x, is_u16b x = true -> is_u16 x).
  { intros x. unfold is_u16b, is_u16. rewrite andb_true_iff. lia. }
  assert (Hl : forall l, forallb is_u16b l = true -> Forall is_u16 l).
  { intros l Hl. apply Forall_forall. intros x Hx. apply Hb.
    rewrite forallb_forall in Hl. apply Hl. by apply list_elem_of_In. }
  split; auto.
  - by apply Nat.eqb_eq.
  - by apply Z.eqb_eq.
Qed.

Lemma wf_NewVM : wf_vm NewVM.
Proof. apply wf_vmb_sound. vm_compute. reflexivity. Qed.

Lemma wf_Reset vm : wf_vm vm -> wf_vm (Reset vm).
Proof.
  intros []. split; try done; unfold Reset; cbn [Registers PC SP LR SR Memory];
    try (unfold is_u16; lia).
  apply Forall_replicate. unfold is_u16. lia.
Qed.

Lemma wf_LoadProgram_from program : forall i startAddr vm vm',
  Forall is_u16 program -> wf_vm vm ->
  LoadProgram_from i program startAddr vm = Some vm' -> wf_vm vm'.
Proof.
  induction program as [|w ws IH]; intros i a vm vm' Hp Hwf; simpl.
  - by intros [= <-].
  - inversion Hp; subst.
    destruct (_ <? _); [|done]. apply IH; [done|]. by apply wf_set_mem.
Qed.

Lemma reachable_wf vm : reachable vm -> wf_vm vm.
Proof.
  induction 1; eauto using wf_NewVM, wf_Step, wf_Reset, wf_LoadProgram_from.
Qed.

(** ** Bits of the status register *)

Lemma testbit_small a k : 0 <= a < 16 -> 4 <= k -> Z.testbit a k = false.
Proof.
  intros Ha Hk. destruct (Z.eq_dec a 0) as [-> | Hne]; [apply Z.bits_0|].
  apply Z.bits_above_log2; [lia|].
  apply Z.lt_le_trans with 4; [|done]. apply Z.log2_lt_pow2; lia.
Qed.

Lemma testbit_u16_high a k : is_u16 a -> 16 <= k -> Z.testbit a k = false.
Proof.
  intros Ha Hk. destruct (Z.eq_dec a 0) as [-> | Hne]; [apply Z.bits_0|].
  unfold is_u16 in Ha. apply Z.bits_above_log2; [lia|].
  apply Z.lt_le_trans with 16; [|done]. apply Z.log2_lt_pow2; lia.
Qed.

Lemma testbit_0xFFF0 k : 4 <= k < 16 -> Z.testbit 0xFFF0 k = true.
Proof.
  intros Hk.
  assert (k = 4 \/ k = 5 \/ k = 6 \/ k = 7 \/ k = 8 \/ k = 9 \/ k = 10 \/
          k = 11 \/ k = 12 \/ k = 13 \/ k = 14 \/ k = 15) as H by lia.
  repeat destruct H as [-> | H]; try subst k; reflexivity.
Qed.

(** The low four bits of [SR & 0xFFF0] are clear: the mask of
    [UpdateFlags] removes C (bit 2) and bit 3 together with Z and N. *)
Lemma testbit_cleared sr k : 0 <= k < 4 -> Z.testbit (Z.land sr 0xFFF0) k = false.
Proof.
  intros Hk. rewrite Z.land_spec.
  assert (k = 0 \/ k = 1 \/ k = 2 \/ k = 3) as H by lia.
  repeat destruct H as [-> | H]; try subst k; apply andb_false_r.
Qed.

Lemma zbit_cases r : zbit r = 0 \/ zbit r = 1.
Proof. unfold zbit. destruct (r =? 0); auto. Qed.

Lemma nbit_cases r : nbit r = 0 \/ nbit r = 2.
Proof. unfold nbit. destruct (_ =? 0); auto. Qed.

Lemma cbit_cases r : cbit r = 0 \/ cbit r = 4.
Proof. unfold cbit. destruct (_ <? _); auto. Qed.

Section FlagWord.
Variables (sr r c : Z).
Hypothesis Hsr : is_u16 sr.
Hypothesis Hc : c = 0 \/ c = 4.

Let sr' := Z.lor (Z.lor (Z.lor (Z.land sr 0xFFF0) (zbit r)) (nbit r)) c.

Lemma flag_word_Z : Z.testbit sr' 0 = (r =? 0).
Proof. apply flags_bit0; auto using nbit_cases. Qed.

Lemma flag_word_N : Z.testbit sr' 1 = Z.testbit r 15.
Proof.
  unfold sr'. rewrite !Z.lor_spec, testbit_cleared, nbit_testbit by lia.
  destruct (zbit_cases r) as [-> | ->], Hc as [-> | ->];
    change (Z.testbit 0 1) with false; change (Z.testbit 1 1) with false;
    change (Z.testbit 4 1) with false; rewrite ?orb_false_r; reflexivity.
Qed.

Lemma flag_word_C : Z.testbit sr' 2 = (c =? 4).
Proof.
  unfold sr'. rewrite !Z.lor_spec, testbit_cleared by lia.
  destruct (zbit_cases r) as [-> | ->], (nbit_cases r) as [-> | ->],
    Hc as [-> | ->]; reflexivity.
Qed.

Lemma flag_word_bit3 : Z.testbit sr' 3 = false.
Proof.
  unfold sr'. rewrite !Z.lor_spec, testbit_cleared by lia.
  destruct (zbit_cases r) as [-> | ->], (nbit_cases r) as [-> | ->],
    Hc as [-> | ->]; reflexivity.
Qed.

Lemma flag_word_high k : 4 <= k -> Z.testbit sr' k = Z.testbit sr k.
Proof.
  intros Hk. unfold sr'. rewrite !Z.lor_spec, Z.land_spec.
  rewrite (testbit_small (zbit r)), (testbit_small (nbit r)),
    (testbit_small c), !orb_false_r; try done.
  - destruct (Z_lt_dec k 16).
    + rewrite testbit_0xFFF0 by lia. apply andb_true_r.
    + rewrite (testbit_u16_high sr) by (done || lia). reflexivity.
  - destruct Hc; lia.
  - destruct (nbit_cases r); lia.
  - destruct (zbit_cases r); lia.
Qed.
End FlagWord.

(** ** One step of a register-writing instruction *)

Lemma logic_step vm :
  wf_vm vm -> Halted vm = false ->
  3 <= f_opcode (mem vm (PC vm / 2)) <= 9 ->
  let i := mem vm (PC vm / 2) in
  let r := logic_result i vm in
  snd (Step vm) = None /\
  SR (fst (Step vm)) = Z.lor (Z.lor (Z.land (SR vm) 0xFFF0) (zbit r)) (nbit r) /\
  Registers (fst (Step vm)) = <[0%nat := 0]> (<[Z.to_nat (f_rd i) := r]> (Registers vm)) /\
  Memory (fst (Step vm)) = Memory vm.
Proof.
  intros Hwf Hrun Hop. cbv zeta.
  rewrite (Step_running _ Hwf Hrun), execute_logic by done.
  unfold write_logic. rewrite UpdateFlags_frame, UpdateFlags_SR. auto.
Qed.

Lemma arith_step vm :
  wf_vm vm -> Halted vm = false ->
  is_arith_op (f_opcode (mem vm (PC vm / 2))) ->
  let i := mem vm (PC vm / 2) in
  let r := arith_result i vm in
  snd (Step vm) = None /\
  SR (fst (Step vm)) =
    Z.lor (Z.lor (Z.lor (Z.land (SR vm) 0xFFF0) (zbit (u16 r))) (nbit (u16 r))) (cbit r) /\
  Registers (fst (Step vm)) =
    <[0%nat := 0]> (<[Z.to_nat (f_rd i) := u16 r]> (Registers vm)) /\
  Memory (fst (Step vm)) = Memory vm.
Proof.
  intros Hwf Hrun Hop. cbv zeta.
  rewrite (Step_running _ Hwf Hrun), execute_arith by done.
  unfold write_arith.
  rewrite UpdateFlagsWithCarry_frame, UpdateFlagsWithCarry_SR. auto.
Qed.

(** C2, as the code has it.  One step of AND, OR, XOR, NOT, SHL or SHR
    succeeds and rewrites the low four bits of SR: Z is set iff the result
    is 0, N is the bit 15 of the result, and C (bit 2) and bit 3 are
    cleared, whatever they were; the bits 4 to 15 keep their values. *)
Theorem logic_step_flags vm
  (Hwf : wf_vm vm) (Hrun : Halted vm = false)
  (Hop : is_logic_op (f_opcode (mem vm (PC vm / 2)))) :
  let r := logic_result (mem vm (PC vm / 2)) vm in
  let sr' := SR (fst (Step vm)) in
  snd (Step vm) = None /\
  Z.testbit sr' 0 = (r =? 0) /\
  Z.testbit sr' 1 = Z.testbit r 15 /\
  Z.testbit sr' 2 = false /\
  Z.testbit sr' 3 = false /\
  (forall k, 4 <= k -> Z.testbit sr' k = Z.testbit (SR vm) k).
Proof.
  unfold is_logic_op in Hop.
  destruct (logic_step vm Hwf Hrun) as (Hok & Hsr & _); [lia|].
  cbv zeta. rewrite Hsr, <- (Z.lor_0_r (Z.lor _ (nbit _))).
  pose proof (wf_SR _ Hwf).
  split; [done|].
  split; [apply flag_word_Z; auto|].
  split; [apply flag_word_N; auto|].
  split; [rewrite flag_word_C by auto; reflexivity|].
  split; [apply flag_word_bit3; auto|].
  intros k Hk. apply flag_word_high; auto.
Qed.

(** C2 as stated fails: after LOADI R3, 0xFF and ADDI R3, 0x01 the carry
    is set, and the AND that follows clears it. *)
Lemma logic_step_clears_carry :
  ~ (forall vm, wf_vm vm -> Halted vm = false ->
       is_logic_op (f_opcode (mem vm (PC vm / 2))) ->
       Z.testbit (SR (fst (Step vm))) 2 = Z.testbit (SR vm) 2).
Proof.
  intros H. specialize (H (run 2 carry_then_and)).
  assert (E : f_opcode (mem (run 2 carry_then_and) (PC (run 2 carry_then_and) / 2)) = 4)
    by (vm_compute; reflexivity).
  rewrite E in H. unfold is_logic_op in H.
  specialize (H ltac:(apply wf_vmb_sound; vm_compute; reflexivity)
                ltac:(vm_compute; reflexivity) ltac:(lia)).
  vm_compute in H. discriminate H.
Qed.

Lemma logic_step_flags_witness :
  let vm := run 2 carry_then_and in
  Z.testbit (SR vm) 2 = true /\
  snd (Step vm) = None /\
  Z.testbit (SR (fst (Step vm))) 0 = true /\
  Z.testbit (SR (fst (Step vm))) 2 = false.
Proof.
  cbv zeta. split; [vm_compute; reflexivity|].
  assert (E : f_opcode (mem (run 2 carry_then_and) (PC (run 2 carry_then_and) / 2)) = 4)
    by (vm_compute; reflexivity).
  destruct (logic_step_flags (run 2 carry_then_and)) as (H1 & H2 & _ & H3 & _).
  - apply wf_vmb_sound. vm_compute. reflexivity.
  - vm_compute. reflexivity.
  - rewrite E. unfold is_logic_op. lia.
  - split; [exact H1|]. split; [|exact H3].
    rewrite H2. vm_compute. reflexivity.
Defined.

(** ** Reset *)

(** C4, as the code has it.  [Reset] restores the registers and the
    scalar state to their initial values and leaves the memory as it
    was. *)
Theorem Reset_state vm :
  Registers (Reset vm) = replicate 16 0 /\
  PC (Reset vm) = 0 /\ SP (Reset vm) = 0xFFFE /\ LR (Reset vm) = 0 /\
  SR (Reset vm) = 0 /\ Halted (Reset vm) = false /\
  CycleCount (Reset vm) = 0 /\
  Memory (Reset vm) = Memory vm.
Proof. repeat split. Qed.

(** C4 as stated fails: a loaded program survives a reset. *)
Lemma Reset_keeps_memory :
  ~ (forall vm, wf_vm vm ->
       forall a, 0 <= a < memLen -> mem (Reset vm) a = 0).
Proof.
  intros H. specialize (H (load [0xC12A; 0xFFFF])).
  specialize (H ltac:(apply wf_vmb_sound; vm_compute; reflexivity) 0).
  specialize (H ltac:(unfold memLen; lia)).
  vm_compute in H. discriminate H.
Qed.

(** ** R0 *)

Lemma reg_UpdateFlags r vm j : reg (UpdateFlags r vm) j = reg vm j.
Proof. rewrite UpdateFlags_frame. reflexivity. Qed.

Lemma reg_UpdateFlagsWithCarry r vm j : reg (UpdateFlagsWithCarry r vm) j = reg vm j.
Proof. rewrite UpdateFlagsWithCarry_frame. reflexivity. Qed.

Lemma execute_R0 i vm :
  wf_vm vm -> reg vm 0 = 0 -> reg (fst (execute i vm)) 0 = 0.
Proof.
  intros Hwf H0.
  by_opcode i Hop; cbn [fst];
    unfold write_arith, write_logic;
    rewrite ?reg_UpdateFlags, ?reg_UpdateFlagsWithCarry;
    auto using reg0_clobber.
  - destruct (_ <? _); cbn [fst]; auto using reg0_clobber.
  - destruct (_ <? _); cbn [fst]; auto.
  - destruct (_ =? _); auto.
  - destruct (i =? 65535); cbn [fst]; auto. destruct (_ =? _); auto.
Qed.

Lemma Step_R0 vm : wf_vm vm -> reg vm 0 = 0 -> reg (fst (Step vm)) 0 = 0.
Proof.
  intros Hwf H0. destruct (Halted vm) eqn:Hh.
  - unfold Step. rewrite Hh. exact H0.
  - rewrite (Step_running _ Hwf Hh). apply execute_R0; [|exact H0].
    apply wf_set_CycleCount, wf_set_PC; [done | apply u16_range].
Qed.

Lemma LoadProgram_from_Registers program : forall i startAddr vm vm',
  LoadProgram_from i program startAddr vm = Some vm' -> Registers vm' = Registers vm.
Proof.
  induction program as [|w ws IH]; intros i a vm vm'; simpl.
  - by intros [= <-].
  - destruct (_ <? _); [|done]. intros H. by rewrite (IH _ _ _ _ H).
Qed.

Lemma reachable_R0 vm : reachable vm -> reg vm 0 = 0.
Proof.
  induction 1 as [|vm vm' p a Hr IH Hp Hl|vm Hr IH|vm Hr IH].
  - reflexivity.
  - unfold reg. by rewrite (LoadProgram_from_Registers _ _ _ _ _ Hl).
  - apply Step_R0; [by apply reachable_wf | exact IH].
  - reflexivity.
Qed.

(** C5.  A successful step from a state with R0 = 0 ends in a state with
    R0 = 0, whatever the instruction and its destination field; and
    R0 = 0 in every state the executor reaches from a fresh machine. *)
Theorem R0_invariant vm :
  (wf_vm vm -> reg vm 0 = 0 -> snd (Step vm) = None -> reg (fst (Step vm)) 0 = 0) /\
  (reachable vm -> reg vm 0 = 0).
Proof.
  split.
  - intros Hwf H0 _. by apply Step_R0.
  - apply reachable_R0.
Qed.

(** LOADI R0, 0x7F ; HALT: the destination field of the LOADI is 0. *)
Lemma R0_invariant_witness :
  let vm := load [0xC07F; 0xFFFF] in
  reg vm 0 = 0 /\ snd (Step vm) = None /\ reg (fst (Step vm)) 0 = 0.
Proof.
  cbv zeta.
  assert (H0 : reg (load [0xC07F; 0xFFFF]) 0 = 0) by (vm_compute; reflexivity).
  assert (Hs : snd (Step (load [0xC07F; 0xFFFF])) = None) by (vm_compute; reflexivity).
  split; [exact H0|]. split; [exact Hs|].
  apply (proj1 (R0_invariant (load [0xC07F; 0xFFFF]))).
  - apply wf_vmb_sound. vm_compute. reflexivity.
  - exact H0.
  - exact Hs.
Defined.

(** ** HALT *)

(** C9.  In a running machine whose word at PC is 0xFFFF, the step
    succeeds, sets the halted flag and advances PC by 2 (modulo 2^16);
    the registers, SP, LR, SR and the memory are unchanged, and the cycle
    counter is incremented. *)
Theorem halt_step vm
  (Hwf : wf_vm vm) (Hrun : Halted vm = false)
  (Hfetch : mem vm (PC vm / 2) = 0xFFFF) :
  Step vm =
  (mkVM (Registers vm) (u16 (PC vm + 2)) (SP vm) (LR vm) (SR vm) (Memory vm)
        true (wrap_int (CycleCount vm + 1)), None).
Proof. rewrite (Step_running _ Hwf Hrun), Hfetch. reflexivity. Qed.

Lemma halt_step_witness :
  let vm := run 1 [0xC12A; 0xFFFF] in
  Halted vm = false /\ mem vm (PC vm / 2) = 0xFFFF /\
  Step vm =
  (mkVM (Registers vm) (u16 (PC vm + 2)) (SP vm) (LR vm) (SR vm) (Memory vm)
        true (wrap_int (CycleCount vm + 1)), None).
Proof.
  cbv zeta.
  assert (Hh : Halted (run 1 [0xC12A; 0xFFFF]) = false) by (vm_compute; reflexivity).
  assert (Hf : mem (run 1 [0xC12A; 0xFFFF]) (PC (run 1 [0xC12A; 0xFFFF]) / 2) = 0xFFFF)
    by (vm_compute; reflexivity).
  split; [exact Hh|]. split; [exact Hf|].
  apply halt_step; [|exact Hh|exact Hf].
  apply wf_vmb_sound. vm_compute. reflexivity.
Defined.

(** ** Arithmetic flags *)

(** C8.  One step of ADD or ADDI succeeds and sets Z iff the 16-bit
    result is 0, N iff its bit 15 is set and C iff the 32-bit sum exceeds
    0xFFFF; and ADDI R3, 0x01 on R3 = 0xFFFF leaves R3 = 0 with Z = 1,
    N = 0 and C = 1. *)
Theorem arith_step_flags vm
  (Hwf : wf_vm vm) (Hrun : Halted vm = false) :
  let i := mem vm (PC vm / 2) in
  let r := arith_result i vm in
  let sr' := SR (fst (Step vm)) in
  (is_arith_op (f_opcode i) ->
     snd (Step vm) = None /\
     Z.testbit sr' 0 = (u16 r =? 0) /\
     Z.testbit sr' 1 = Z.testbit (u16 r) 15 /\
     Z.testbit sr' 2 = (0xFFFF <? r)) /\
  (i = 0x2301 -> reg vm 3 = 0xFFFF ->
     snd (Step vm) = None /\ reg (fst (Step vm)) 3 = 0 /\
     Z.testbit sr' 0 = true /\ Z.testbit sr' 1 = false /\ Z.testbit sr' 2 = true).
Proof.
  cbv zeta.
  assert (G : is_arith_op (f_opcode (mem vm (PC vm / 2))) ->
     snd (Step vm) = None /\
     Z.testbit (SR (fst (Step vm))) 0 = (u16 (arith_result (mem vm (PC vm / 2)) vm) =? 0) /\
     Z.testbit (SR (fst (Step vm))) 1 = Z.testbit (u16 (arith_result (mem vm (PC vm / 2)) vm)) 15 /\
     Z.testbit (SR (fst (Step vm))) 2 = (0xFFFF <? arith_result (mem vm (PC vm / 2)) vm)).
  { intros Hop. destruct (arith_step vm Hwf Hrun Hop) as (Hok & Hsr & _).
    rewrite Hsr. pose proof (wf_SR _ Hwf).
    pose proof (cbit_cases (arith_result (mem vm (PC vm / 2)) vm)).
    split; [done|].
    split; [apply flag_word_Z; auto|].
    split; [apply flag_word_N; auto|].
    rewrite flag_word_C by auto. unfold cbit. destruct (_ <? _); reflexivity. }
  split; [exact G|].
  intros Hi H3. rewrite Hi in G.
  destruct G as (Hok & HZ & HN & HC); [right; reflexivity|].
  destruct (arith_step vm Hwf Hrun) as (_ & _ & Hregs & _);
    [rewrite Hi; right; reflexivity|].
  rewrite Hi in Hregs.
  assert (Hr : arith_result 0x2301 vm = 0x10000).
  { unfold arith_result. change (f_opcode 0x2301) with 2.
    change (f_rd 0x2301) with 3. rewrite H3. reflexivity. }
  rewrite Hr in *.
  split; [exact Hok|]. split; [|auto].
  unfold reg. rewrite Hregs. change (f_rd 0x2301) with 3.
  rewrite list_lookup_insert_ne by (simpl; lia).
  rewrite list_lookup_insert_eq; [reflexivity|].
  rewrite (wf_regs_len _ Hwf). simpl. lia.
Qed.

Lemma arith_step_flags_witness :
  let vm := run 1 addi_carry in
  Halted vm = false /\ mem vm (PC vm / 2) = 0x2301 /\ reg vm 3 = 0xFFFF /\
  snd (Step vm) = None /\ reg (fst (Step vm)) 3 = 0 /\
  Z.testbit (SR (fst (Step vm))) 0 = true /\
  Z.testbit (SR (fst (Step vm))) 1 = false /\
  Z.testbit (SR (fst (Step vm))) 2 = true.
Proof.
  cbv zeta.
  assert (Hh : Halted (run 1 addi_carry) = false) by (vm_compute; reflexivity).
  assert (Hf : mem (run 1 addi_carry) (PC (run 1 addi_carry) / 2) = 0x2301)
    by (vm_compute; reflexivity).
  assert (H3 : reg (run 1 addi_carry) 3 = 0xFFFF) by (vm_compute; reflexivity).
  split; [exact Hh|]. split; [exact Hf|]. split; [exact H3|].
  apply (arith_step_flags (run 1 addi_carry)); [|exact Hh|exact Hf|exact H3].
  apply wf_vmb_sound. vm_compute. reflexivity.
Defined.

(** ** The range guards *)

Lemma execute_load i vm :
  wf_vm vm -> f_opcode i = 0xA ->
  execute i vm =
  (set_reg 0 0 (set_reg (f_rd i) (mem vm (mem_address i vm)) vm), None).
Proof.
  intros Hwf Hop. unfold execute. rewrite Hop. cbv beta iota zeta.
  fold (mem_address i vm). rewrite (lenMemory_wf _ Hwf).
  pose proof (mem_address_range i vm).
  destruct (Z.ltb_spec (mem_address i vm) 32768); [reflexivity | lia].
Qed.

Lemma execute_store i vm :
  wf_vm vm -> f_opcode i = 0xB ->
  execute i vm = (set_mem (mem_address i vm) (reg vm (f_rd i)) vm, None).
Proof.
  intros Hwf Hop. unfold execute. rewrite Hop. cbv beta iota zeta.
  fold (mem_address i vm). rewrite (lenMemory_wf _ Hwf).
  pose proof (mem_address_range i vm).
  destruct (Z.ltb_spec (mem_address i vm) 32768); [reflexivity | lia].
Qed.

(** C10.  The memory has 32768 words; the word index of a fetch, PC/2,
    and the word index of a LOAD or STORE, ((rs + offset*2) mod 2^16)/2,
    are below 32768.  So [Fetch] always reads the memory and advances PC
    (it never substitutes 0xFFFF), a LOAD always writes its register and
    a STORE always writes the memory. *)
Theorem guards_never_taken vm (Hwf : wf_vm vm) :
  lenMemory vm = 32768 /\
  0 <= PC vm / 2 < lenMemory vm /\
  Fetch vm = (mem vm (PC vm / 2), set_PC (u16 (PC vm + 2)) vm) /\
  forall i,
    0 <= mem_address i vm < lenMemory vm /\
    (f_opcode i = 0xA ->
       execute i vm =
       (set_reg 0 0 (set_reg (f_rd i) (mem vm (mem_address i vm)) vm), None)) /\
    (f_opcode i = 0xB ->
       execute i vm = (set_mem (mem_address i vm) (reg vm (f_rd i)) vm, None)).
Proof.
  rewrite (lenMemory_wf _ Hwf).
  split; [reflexivity|].
  split; [apply pc_index_in_range, (wf_PC _ Hwf)|].
  split; [by apply Fetch_wf|].
  intros i. split; [apply mem_address_range|].
  split; intros Hop; [by apply execute_load | by apply execute_store].
Qed.

Lemma guards_never_taken_witness :
  let vm := run 1 store_load in
  lenMemory vm = 32768 /\
  0 <= PC vm / 2 < lenMemory vm /\
  Fetch vm = (mem vm (PC vm / 2), set_PC (u16 (PC vm + 2)) vm) /\
  forall i,
    0 <= mem_address i vm < lenMemory vm /\
    (f_opcode i = 0xA ->
       execute i vm =
       (set_reg 0 0 (set_reg (f_rd i) (mem vm (mem_address i vm)) vm), None)) /\
    (f_opcode i = 0xB ->
       execute i vm = (set_mem (mem_address i vm) (reg vm (f_rd i)) vm, None)).
Proof.
  cbv zeta. apply guards_never_taken.
  apply wf_vmb_sound. vm_compute. reflexivity.
Defined.

End Executor.

(** * Properties of the assembler *)

Lemma oneOf_In op l : Asm.oneOf op l = true -> In op l.
Proof.
  unfold Asm.oneOf. rewrite existsb_exists. intros (x & Hx & E).
  apply String.eqb_eq in E. by subst.
Qed.

(** From [oneOf op l = true] to one case per mnemonic of [l]. *)
Ltac mnemonic_cases H :=
  apply oneOf_In in H; simpl in H;
  repeat (destruct H as [H | H]); try contradiction; symmetry in H.

Section Assembler.
Import GoLib Asm AsmSpec.
Local Open Scope string_scope.
Local Open Scope Z_scope.


(** ** Missing operands *)

Lemma operand_short instr k :
  (length (Operands instr) <= k)%nat -> operand instr k = Panic.
Proof. intros H. unfold operand. by rewrite lookup_ge_None_2. Qed.

Lemma operand_Some instr k o :
  Operands instr !! k = Some o -> operand instr k = Ok o.
Proof. intros H. unfold operand. by rewrite H. Qed.


(** The encoder reads the operands of a known mnemonic by index without
    comparing the length of the list with the number it needs: on every
    record with fewer operands the access is out of bounds, a run-time
    panic, where the path of an unknown mnemonic returns an error value. *)
Theorem encode_short_operands labels instr k
  (Har : arity (Opcode instr) = Some k)
  (Hlen : (length (Operands instr) < k)%nat) :
  encodeInstruction labels instr = Panic.
Proof.
  destruct instr as [lbl op ops addr]. simpl in *. unfold arity in Har.
  destruct (oneOf op ["NOP"; "HALT"]) eqn:E0; [injection Har as <-; lia|].
  destruct (oneOf op ["JMP"]) eqn:E1.
  { injection Har as <-. mnemonic_cases E1; subst op.
    destruct ops as [|a ?]; simpl in Hlen; [reflexivity | lia]. }
  destruct (oneOf op ["NOT"; "ADDI"; "LOADI"; "BEQ"; "BNE"]) eqn:E2.
  { injection Har as <-. mnemonic_cases E2; subst op;
      (destruct ops as [|a [|b ?]]; simpl in Hlen; [reflexivity | reflexivity | lia]). }
  destruct (oneOf op ["ADD"; "SUB"; "AND"; "OR"; "XOR"; "SHL"; "SHR"; "LOAD"; "STORE"])
    eqn:E3; [|discriminate].
  injection Har as <-. mnemonic_cases E3; subst op;
    (destruct ops as [|a [|b [|c ?]]]; simpl in Hlen;
     [reflexivity | reflexivity | reflexivity | lia]).
Qed.

(** C7, the defect at the failing input.  The line [ADD R1, R2] is
    recorded by the first pass as an ADD with two operands; the encoder
    reads a third operand of it, out of the bounds of the list, so it
    returns no error value and the assembly panics. *)
Lemma encode_short_add_no_error :
  let instr := mkInstruction "" "ADD" ["R1"; "R2"] 0 in
  Instructions (firstPass short_add) = [instr] /\
  (length (Operands instr) < 3)%nat /\
  ~ (exists msg, encodeInstruction ∅ instr = Error msg) /\
  fst (Assemble short_add) = Panic.
Proof.
  cbv zeta. split; [vm_compute; reflexivity|]. split; [simpl; lia|].
  split; [|vm_compute; reflexivity].
  intros [msg H]. vm_compute in H. discriminate H.
Qed.

Lemma encode_short_operands_witness :
  let instr := mkInstruction "" "ADD" ["R1"; "R2"] 0 in
  arity (Opcode instr) = Some 3%nat /\
  (length (Operands instr) < 3)%nat /\
  encodeInstruction ∅ instr = Panic.
Proof.
  cbv zeta. split; [reflexivity|]. split; [simpl; lia|].
  apply (encode_short_operands ∅ _ 3); [reflexivity | simpl; lia].
Defined.

(** ** The encoder, mnemonic by mnemonic *)

Lemma encode_rrr labels instr opcode :
  (Opcode instr, opcode) ∈
    [("ADD", 0x1); ("SUB", 0x3); ("AND", 0x4); ("OR", 0x5); ("XOR", 0x6);
     ("SHL", 0x8); ("SHR", 0x9)] ->
  encodeInstruction labels instr =
  (let* o0 := operand instr 0 in
   let* o1 := operand instr 1 in
   let* o2 := operand instr 2 in
   Ok (Z.lor (Z.lor (Z.lor (shl16 opcode 12) (shl16 (parseRegister o0) 8))
                    (shl16 (parseRegister o1) 4)) (parseRegister o2))).
Proof.
  intros H. unfold encodeInstruction.
  repeat (apply elem_of_cons in H as [[= -> ->] | H]; [reflexivity|]).
  by apply elem_of_nil in H.
Qed.

Lemma encode_ri labels instr opcode :
  (Opcode instr, opcode) ∈ [("ADDI", 0x2); ("LOADI", 0xC)] ->
  encodeInstruction labels instr =
  (let* o0 := operand instr 0 in
   let* o1 := operand instr 1 in
   Ok (Z.lor (Z.lor (shl16 opcode 12) (shl16 (parseRegister o0) 8))
             (u16 (Z.land (parseImmediate o1) 0xFF)))).
Proof.
  intros H. unfold encodeInstruction.
  repeat (apply elem_of_cons in H as [[= -> ->] | H]; [reflexivity|]).
  by apply elem_of_nil in H.
Qed.

Lemma encode_JMP labels instr :
  Opcode instr = "JMP" ->
  encodeInstruction labels instr =
  (let* o0 := operand instr 0 in
   Ok (Z.lor 0xD000
         (Z.land (match labels !! o0 with
                  | Some labelAddr => labelAddr
                  | None => u16 (parseImmediate o0)
                  end) 0xFFF))).
Proof. intros H. unfold encodeInstruction. rewrite H. reflexivity. Qed.

Lemma encode_branch labels instr opcode :
  (Opcode instr, opcode) ∈ [("BEQ", 0xE); ("BNE", 0xF)] ->
  encodeInstruction labels instr =
  (let* o0 := operand instr 0 in
   let* o1 := operand instr 1 in
   Ok (Z.lor (Z.lor (shl16 opcode 12) (shl16 (parseRegister o0) 8))
             (Z.land (match labels !! o1 with
                      | Some labelAddr =>
                          u16 (branchOffset labelAddr (Asm.Address instr))
                      | None => u16 (parseImmediate o1)
                      end) 0xFF))).
Proof.
  intros H. unfold encodeInstruction.
  repeat (apply elem_of_cons in H as [[= -> ->] | H]; [reflexivity|]).
  by apply elem_of_nil in H.
Qed.

(** ** Checking a finite range by computation *)

Lemma forall_range (P : Z -> bool) lo n :
  forallb P (seqZ lo n) = true -> forall v, lo <= v < lo + n -> P v = true.
Proof.
  intros H v Hv. rewrite forallb_forall in H. apply H.
  apply list_elem_of_In, elem_of_seqZ. lia.
Qed.

Lemma land_0x80 v : 0 <= v < 256 -> (Z.land v 0x80 =? 0) = (v <? 128).
Proof.
  intros Hv.
  apply Bool.eqb_prop. revert v Hv.
  apply (forall_range (fun v => Bool.eqb (Z.land v 128 =? 0) (v <? 128)) 0 256).
  vm_compute. reflexivity.
Qed.

(** ** Branch offsets *)

Lemma testbit_0xFF_high k : 8 <= k -> Z.testbit 0xFF k = false.
Proof. intros. apply Z.bits_above_log2; [lia|]. simpl. lia. Qed.

Lemma shl16_low x n : 8 <= n -> Z.land (shl16 x n) 0xFF = 0.
Proof.
  intros Hn. apply Z.bits_inj'. intros k Hk.
  rewrite Z.land_spec, Z.bits_0.
  destruct (Z_lt_dec k 8).
  - unfold shl16, u16. change 65536 with (2 ^ 16).
    rewrite Z.mod_pow2_bits_low, Z.shiftl_spec_low by lia. reflexivity.
  - rewrite testbit_0xFF_high by lia. apply andb_false_r.
Qed.

Lemma land_0xFF_idem x : Z.land (Z.land x 0xFF) 0xFF = Z.land x 0xFF.
Proof. rewrite <- Z.land_assoc. reflexivity. Qed.

(** The immediate field of an encoded branch is the last operand of the
    [|] of the encoder. *)
Lemma imm8_of_branch opcode r x :
  VM.f_imm8 (Z.lor (Z.lor (shl16 opcode 12) (shl16 r 8)) (Z.land x 0xFF)) =
  Z.land x 0xFF.
Proof.
  unfold VM.f_imm8.
  rewrite !Z.land_lor_distr_l, !shl16_low, land_0xFF_idem by lia. simpl.
  apply u8_small, land_0xFF.
Qed.

Lemma land_u16_0xFF x : Z.land (u16 x) 0xFF = x mod 256.
Proof.
  change 0xFF with (Z.ones 8). rewrite Z.land_ones by lia. unfold u16.
  change 65536 with (256 * 256). change (2 ^ 8) with 256.
  rewrite Z.rem_mul_r by lia. rewrite Z.mul_comm, Z.mod_add by lia.
  apply Z.mod_mod. lia.
Qed.

Lemma signedOffset_low8 off :
  -128 <= off <= 127 -> VM.signedOffset (Z.land (u16 off) 0xFF) = off.
Proof.
  intros Hoff. rewrite land_u16_0xFF. unfold VM.signedOffset.
  rewrite land_0x80 by (apply Z.mod_pos_bound; lia).
  unfold int16, int8, u8, u16.
  repeat match goal with
         | |- context [?a <? ?b] => destruct (Z.ltb_spec a b)
         end; Z.to_euclidean_division_equations; lia.
Qed.

Lemma branchOffset_exact target addr :
  -32768 <= target - (addr + 2) <= 32767 ->
  branchOffset target addr = Z.quot (target - (addr + 2)) 2.
Proof.
  intros H. unfold branchOffset. f_equal. unfold int16, u16.
  replace (target - addr - 2) with (target - (addr + 2)) by lia.
  repeat match goal with
         | |- context [?a <? ?b] => destruct (Z.ltb_spec a b)
         end; Z.to_euclidean_division_equations; lia.
Qed.

Lemma int8_low8 off : -128 <= off <= 127 -> int8 (off mod 256) = off.
Proof.
  intros H. unfold int8, u8. rewrite Z.mod_mod by lia.
  destruct (Z.ltb_spec (off mod 256) 128);
    Z.to_euclidean_division_equations; lia.
Qed.

(** C6, as the code has it.  For a BEQ or BNE with a register operand and
    a label operand of the label table the encoder never fails: it
    computes the offset (target - (address + 2)) / 2 in 16-bit signed
    arithmetic, the division truncating, and stores the low 8 bits of the
    offset as the low 8 bits of the instruction.  An offset in -128..127
    is stored as that signed 8-bit quantity; an offset outside it is
    reduced silently to its low 8 bits. *)
Theorem branch_offset_encoding labels instr opcode o0 o1 target
  (Hop : (Opcode instr, opcode) ∈ [("BEQ", 0xE); ("BNE", 0xF)])
  (Hrc : Operands instr !! 0%nat = Some o0)
  (Htarget : Operands instr !! 1%nat = Some o1)
  (Hlabel : labels !! o1 = Some target) :
  let off := branchOffset target (Asm.Address instr) in
  let w := Z.lor (Z.lor (shl16 opcode 12) (shl16 (parseRegister o0) 8))
                 (Z.land (u16 off) 0xFF) in
  encodeInstruction labels instr = Ok w /\
  Z.land w 0xFF = off mod 256 /\
  (-128 <= off <= 127 -> int8 (Z.land w 0xFF) = off) /\
  (-32768 <= target - (Asm.Address instr + 2) <= 32767 ->
     off = Z.quot (target - (Asm.Address instr + 2)) 2).
Proof.
  cbv zeta.
  assert (Hlow : forall x,
    Z.land (Z.lor (Z.lor (shl16 opcode 12) (shl16 (parseRegister o0) 8))
                  (Z.land (u16 x) 0xFF)) 0xFF = x mod 256).
  { intros x. rewrite <- land_u16_0xFF.
    rewrite <- (imm8_of_branch opcode (parseRegister o0) (u16 x)) at 2.
    unfold VM.f_imm8. symmetry. apply u8_small, land_0xFF. }
  split; [|split; [apply Hlow|split]].
  - rewrite (encode_branch _ _ _ Hop), (operand_Some _ _ _ Hrc). simpl.
    rewrite (operand_Some _ _ _ Htarget). simpl. by rewrite Hlabel.
  - intros Hoff. rewrite Hlow. by apply int8_low8.
  - apply branchOffset_exact.
Qed.

(** C6 as stated fails: a BEQ at address 0 to a label at address 512
    has the offset 255; the assembly succeeds and the field is 0xFF. *)
Lemma far_branch_no_error :
  (Labels (firstPass far_branch) : gmap string Z) !! "far" = Some 512 /\
  head (Instructions (firstPass far_branch)) =
    Some (mkInstruction "" "BEQ" ["R1"; "far"] 0) /\
  ~ (-128 <= (512 - (0 + 2)) / 2 <= 127) /\
  fst (Assemble far_branch) = Ok (0xE1FF :: replicate 255 0 ++ [0xFFFF]) /\
  ~ (exists msg, fst (Assemble far_branch) = Error msg).
Proof.
  split; [vm_compute; reflexivity|]. split; [vm_compute; reflexivity|].
  split; [intros [_ H]; vm_compute in H; by apply H|].
  split; [vm_compute; reflexivity|].
  intros [msg H]. vm_compute in H. discriminate H.
Qed.

Lemma branch_offset_encoding_witness :
  let instr := mkInstruction "" "BNE" ["R1"; "top"] 6 in
  let labels : gmap string Z := {["top" := 2]} in
  encodeInstruction labels instr = Ok 0xF1FD /\
  Z.land 0xF1FD 0xFF = (-3) mod 256 /\
  int8 (Z.land 0xF1FD 0xFF) = -3 /\
  branchOffset 2 6 = Z.quot (2 - (6 + 2)) 2.
Proof.
  cbv zeta.
  destruct (branch_offset_encoding {["top" := 2]}
              (mkInstruction "" "BNE" ["R1"; "top"] 6) 0xF "R1" "top" 2)
    as (H1 & H2 & H3 & H4).
  - apply list_elem_of_further, list_elem_of_here.
  - reflexivity.
  - reflexivity.
  - vm_compute. reflexivity.
  - split; [exact H1|]. split; [exact H2|].
    split; [apply H3; vm_compute; split; discriminate|].
    apply H4. simpl. lia.
Defined.

End Assembler.


(** * The round trip through the disassembler *)

Section RoundTrip.
Import GoLib Asm AsmSpec.
Local Open Scope string_scope.
Local Open Scope Z_scope.

Lemma disassemble_text w addr :
  Disasm.Mnemonic (Disasm.disassembleInstruction w addr) =
    Disasm.Mnemonic (Disasm.disassembleInstruction w 0) /\
  Disasm.Operands (Disasm.disassembleInstruction w addr) =
    Disasm.Operands (Disasm.disassembleInstruction w 0).
Proof.
  unfold Disasm.disassembleInstruction.
  destruct (w =? 0); [done|]. destruct (w =? 65535); [done|].
  by destruct (Disasm.decodeText w) as [[m o] c].
Qed.

Lemma sameAs_address op vals w addr :
  sameAs op vals (Disasm.disassembleInstruction w 0) ->
  sameAs op vals (Disasm.disassembleInstruction w addr).
Proof.
  unfold sameAs, readBack.
  destruct (disassemble_text w addr) as [-> ->]. done.
Qed.

Lemma sameAsb_sound op vals w addr :
  sameAsb op vals w = true ->
  sameAs op (Some vals) (Disasm.disassembleInstruction w addr).
Proof.
  intros H. apply sameAs_address. unfold sameAsb in H.
  apply andb_prop in H as [Hm H]. apply String.eqb_eq in Hm.
  split; [done|].
  destruct (readBack _) as [|i' [|]]; try discriminate.
  apply andb_prop in H as [Ho H]. apply String.eqb_eq in Ho.
  apply bool_decide_eq_true in H. by exists i'.
Qed.

(** The exhaustive checks, by computation. *)
Lemma check_ADD : check_rrr "ADD" 0x1 = true.
Proof. vm_compute. reflexivity. Qed.
Lemma check_SUB : check_rrr "SUB" 0x3 = true.
Proof. vm_compute. reflexivity. Qed.
Lemma check_ADDI : check_ri "ADDI" 0x2 = true.
Proof. vm_compute. reflexivity. Qed.
Lemma check_LOADI : check_ri "LOADI" 0xC = true.
Proof. vm_compute. reflexivity. Qed.
Lemma check_JMP : check_jmp = true.
Proof. vm_compute. reflexivity. Qed.
Lemma check_BEQ : check_branch "BEQ" 0xE = true.
Proof. vm_compute. reflexivity. Qed.
Lemma check_BNE : check_branch "BNE" 0xF = true.
Proof. vm_compute. reflexivity. Qed.

Lemma isReg_range a : isReg a = true -> 0 <= a < 0 + 16.
Proof. unfold isReg. rewrite andb_true_iff. lia. Qed.

Lemma rrr_sound op opcode a b c addr :
  check_rrr op opcode = true ->
  isReg a = true -> isReg b = true -> isReg c = true ->
  sameAs op (Some [a; b; c])
    (Disasm.disassembleInstruction (word_rrr opcode a b c) addr).
Proof.
  intros H Ha Hb Hc. apply sameAsb_sound. unfold check_rrr in H.
  pose proof (forall_range _ _ _ H a (isReg_range _ Ha)) as H1. cbv beta in H1.
  pose proof (forall_range _ _ _ H1 b (isReg_range _ Hb)) as H2. cbv beta in H2.
  exact (forall_range _ _ _ H2 c (isReg_range _ Hc)).
Qed.

Lemma ri_sound op opcode a v addr :
  check_ri op opcode = true ->
  isReg a = true -> 0 <= v <= 0xFF ->
  sameAs op (Some [a; v])
    (Disasm.disassembleInstruction (word_ri opcode a v) addr).
Proof.
  intros H Ha Hv. apply sameAsb_sound. unfold check_ri in H.
  pose proof (forall_range _ _ _ H a (isReg_range _ Ha)) as H1. cbv beta in H1.
  apply (forall_range _ _ _ H1 v). lia.
Qed.

Lemma jmp_sound t addr :
  0 <= t <= 0xFFF ->
  sameAs "JMP" (Some [t]) (Disasm.disassembleInstruction (word_jmp t) addr).
Proof.
  intros Ht. apply sameAsb_sound.
  apply (forall_range _ _ _ check_JMP t). lia.
Qed.

Lemma branch_sound op opcode a v addr :
  check_branch op opcode = true ->
  isReg a = true -> -128 <= v <= 127 ->
  (String.eqb op "BNE" && (a =? 15) && (v =? -1)) = false ->
  sameAs op (Some [a; v])
    (Disasm.disassembleInstruction (word_branch opcode a v) addr).
Proof.
  intros H Ha Hv Hne. apply sameAsb_sound. unfold check_branch in H.
  pose proof (forall_range _ _ _ H a (isReg_range _ Ha)) as H1. cbv beta in H1.
  pose proof (forall_range _ _ _ H1 v ltac:(lia)) as H2. cbv beta in H2.
  rewrite Hne in H2. exact H2.
Qed.

(** One instruction: it encodes, and the disassembled word reads back
    with the same mnemonic and operand values. *)
Lemma roundtrip_one labels i :
  roundTrips labels i = true ->
  exists w, encodeInstruction labels i = Ok w /\
    forall addr, sameAs (Opcode i) (operandValues labels i)
                   (Disasm.disassembleInstruction w addr).
Proof.
  unfold roundTrips.
  destruct (operandValues labels i) as [vals|] eqn:Hv; [|discriminate].
  intros Hin. unfold operandValues in Hv.
  destruct (oneOf (Opcode i) ["NOP"; "HALT"]) eqn:E0.
  { injection Hv as <-. mnemonic_cases E0; rewrite E0.
    - exists 0. split; [unfold encodeInstruction; rewrite E0; reflexivity|].
      intros addr. apply sameAsb_sound. vm_compute. reflexivity.
    - exists 0xFFFF. split; [unfold encodeInstruction; rewrite E0; reflexivity|].
      intros addr. apply sameAsb_sound. vm_compute. reflexivity. }
  destruct (oneOf (Opcode i) ["ADD"; "SUB"; "AND"; "OR"; "XOR"; "SHL"; "SHR"]) eqn:E1.
  { destruct (Operands i !! 0%nat) as [o0|] eqn:H0; [|discriminate].
    destruct (Operands i !! 1%nat) as [o1|] eqn:H1; [|discriminate].
    destruct (Operands i !! 2%nat) as [o2|] eqn:H2; [|discriminate].
    simpl in Hv. injection Hv as <-.
    cbn [inField] in Hin. rewrite !andb_true_iff in Hin.
    destruct Hin as [[[Hop Ha] Hb] Hc].
    exists (word_rrr (if String.eqb (Opcode i) "ADD" then 1 else 3)
              (parseRegister o0) (parseRegister o1) (parseRegister o2)).
    mnemonic_cases Hop; rewrite Hop; simpl String.eqb; cbv iota.
    - split; [|intros addr; by apply rrr_sound; [apply check_ADD|..]].
      rewrite (encode_rrr _ _ 1) by (rewrite Hop; set_solver).
      rewrite (operand_Some _ _ _ H0), (operand_Some _ _ _ H1),
        (operand_Some _ _ _ H2). reflexivity.
    - split; [|intros addr; by apply rrr_sound; [apply check_SUB|..]].
      rewrite (encode_rrr _ _ 3) by (rewrite Hop; set_solver).
      rewrite (operand_Some _ _ _ H0), (operand_Some _ _ _ H1),
        (operand_Some _ _ _ H2). reflexivity. }
  destruct (oneOf (Opcode i) ["NOT"]) eqn:E2.
  { destruct (Operands i !! 0%nat) as [o0|] eqn:H0; [|discriminate].
    destruct (Operands i !! 1%nat) as [o1|] eqn:H1; [|discriminate].
    simpl in Hv. injection Hv as <-. exfalso.
    mnemonic_cases E2. rewrite E2 in Hin. cbn [inField] in Hin.
    simpl oneOf in Hin. cbv iota in Hin.
    by rewrite andb_false_r in Hin. }
  destruct (oneOf (Opcode i) ["ADDI"; "LOADI"]) eqn:E3.
  { destruct (Operands i !! 0%nat) as [o0|] eqn:H0; [|discriminate].
    destruct (Operands i !! 1%nat) as [o1|] eqn:H1; [|discriminate].
    simpl in Hv. injection Hv as <-.
    cbn [inField] in Hin. rewrite E3 in Hin. rewrite !andb_true_iff in Hin.
    destruct Hin as [Ha [Hv1 Hv2]].
    apply Z.leb_le in Hv1, Hv2.
    exists (word_ri (if String.eqb (Opcode i) "ADDI" then 2 else 0xC)
              (parseRegister o0) (parseImmediate o1)).
    mnemonic_cases E3; rewrite E3; simpl String.eqb; cbv iota.
    - split; [|intros addr; by apply ri_sound; [apply check_ADDI|..]].
      rewrite (encode_ri _ _ 2) by (rewrite E3; set_solver).
      rewrite (operand_Some _ _ _ H0), (operand_Some _ _ _ H1). reflexivity.
    - split; [|intros addr; by apply ri_sound; [apply check_LOADI|..]].
      rewrite (encode_ri _ _ 0xC) by (rewrite E3; set_solver).
      rewrite (operand_Some _ _ _ H0), (operand_Some _ _ _ H1). reflexivity. }
  destruct (oneOf (Opcode i) ["LOAD"; "STORE"]) eqn:E4.
  { destruct (Operands i !! 0%nat) as [o0|] eqn:H0; [|discriminate].
    destruct (Operands i !! 1%nat) as [o1|] eqn:H1; [|discriminate].
    destruct (Operands i !! 2%nat) as [o2|] eqn:H2; [|discriminate].
    simpl in Hv. injection Hv as <-. exfalso.
    cbn [inField] in Hin.
    mnemonic_cases E4; rewrite E4 in Hin; simpl oneOf in Hin; discriminate. }
  destruct (oneOf (Opcode i) ["JMP"]) eqn:E5.
  { destruct (Operands i !! 0%nat) as [o0|] eqn:H0; [|discriminate].
    simpl in Hv. injection Hv as <-.
    cbn [inField] in Hin. rewrite E5 in Hin. rewrite !andb_true_iff in Hin.
    destruct Hin as [[_ Ht1] Ht2]. apply Z.leb_le in Ht1, Ht2.
    mnemonic_cases E5. rewrite E5.
    eexists. split; [|intros addr; by apply jmp_sound].
    rewrite (encode_JMP _ _ E5), (operand_Some _ _ _ H0). simpl.
    unfold word_jmp. destruct (labels !! o0); [reflexivity|].
    rewrite u16_id; [reflexivity | unfold VM.is_u16; lia]. }
  destruct (oneOf (Opcode i) ["BEQ"; "BNE"]) eqn:E6; [|discriminate].
  destruct (Operands i !! 0%nat) as [o0|] eqn:H0; [|discriminate].
  destruct (Operands i !! 1%nat) as [o1|] eqn:H1; [|discriminate].
  simpl in Hv. injection Hv as <-.
  cbn [inField] in Hin. rewrite E3, E6 in Hin. rewrite !andb_true_iff in Hin.
  destruct Hin as [Ha [[Hv1 Hv2] Hne]].
  apply Z.leb_le in Hv1, Hv2. apply negb_true_iff in Hne.
  exists (word_branch (if String.eqb (Opcode i) "BEQ" then 0xE else 0xF)
            (parseRegister o0)
            (match labels !! o1 with
             | Some target => branchOffset target (Address i)
             | None => parseImmediate o1
             end)).
  mnemonic_cases E6; rewrite E6 in *; simpl String.eqb; cbv iota.
  - split; [|intros addr; by apply branch_sound; [apply check_BEQ|..]].
    rewrite (encode_branch _ _ 0xE) by (rewrite E6; set_solver).
    rewrite (operand_Some _ _ _ H0), (operand_Some _ _ _ H1). simpl.
    unfold word_branch. by destruct (labels !! o1).
  - split; [|intros addr; by apply branch_sound; [apply check_BNE|..]].
    rewrite (encode_branch _ _ 0xF) by (rewrite E6; set_solver).
    rewrite (operand_Some _ _ _ H0), (operand_Some _ _ _ H1). simpl.
    unfold word_branch. by destruct (labels !! o1).
Qed.

Lemma secondPass_roundtrip labels instrs :
  forallb (roundTrips labels) instrs = true ->
  forall acc, exists code,
    secondPassFrom labels instrs acc = Ok (acc ++ code)%list /\
    forall start,
      Forall2 (fun i d => sameAs (Opcode i) (operandValues labels i) d)
        instrs (Disasm.Disassemble code start).
Proof.
  induction instrs as [|i rest IH]; intros Hfit acc.
  - exists []. split; [simpl; by rewrite app_nil_r | constructor].
  - simpl in Hfit. apply andb_prop in Hfit as [Hi Hrest].
    destruct (roundtrip_one labels i Hi) as (w & Hw & Hd).
    destruct (IH Hrest (acc ++ [w])%list) as (code & Hcode & Hds).
    exists (w :: code). split.
    + simpl. rewrite Hw. simpl. rewrite Hcode. by rewrite <- app_assoc.
    + intros start. simpl. constructor; [apply Hd | apply Hds].
Qed.

(** C1, as the code has it.  Take a program whose instructions all have
    a mnemonic among NOP, HALT, ADD, ADDI, SUB, LOADI, JMP, BEQ and BNE,
    the operands their mnemonic takes, registers R0..RF, immediates in
    0..255, jump addresses in 0..0xFFF and branch offsets in -128..127,
    and none of which is a BNE on RF with offset -1.  Its assembly
    succeeds, and disassembling the code yields, instruction by
    instruction, the same mnemonic and an operand text that the first pass
    reads back with the same operand values. *)
Theorem assemble_disassemble_roundtrip source
  (Hfit : forallb (roundTrips (Labels (firstPass source)))
            (Instructions (firstPass source)) = true) :
  exists code,
    fst (Assemble source) = Ok code /\
    forall start,
      Forall2 (fun i d =>
                 sameAs (Opcode i) (operandValues (Labels (firstPass source)) i) d)
        (Instructions (firstPass source)) (Disasm.Disassemble code start).
Proof.
  destruct (secondPass_roundtrip _ _ Hfit []) as (code & Hcode & Hd).
  exists code. split; [exact Hcode | exact Hd].
Qed.

Lemma assemble_disassemble_roundtrip_witness :
  exists code,
    fst (Assemble forward_branch) = Ok code /\
    forall start,
      Forall2 (fun i d =>
                 sameAs (Opcode i)
                   (operandValues (Labels (firstPass forward_branch)) i) d)
        (Instructions (firstPass forward_branch)) (Disasm.Disassemble code start).
Proof.
  apply (assemble_disassemble_roundtrip forward_branch).
  vm_compute. reflexivity.
Defined.

(** C1 as stated fails: the branch of [x: BNE RF, x] has the offset -1,
    its code word is 0xFFFF, and the disassembler reads HALT. *)
Lemma bne_self_reads_halt :
  Instructions (firstPass bne_self) = [mkInstruction "x" "BNE" ["RF"; "x"] 0] /\
  operandValues (Labels (firstPass bne_self))
    (mkInstruction "x" "BNE" ["RF"; "x"] 0) = Some [15; -1] /\
  fst (Assemble bne_self) = Ok [0xFFFF] /\
  Disasm.Mnemonic <$> Disasm.Disassemble [0xFFFF] 0 = ["HALT"] /\
  ~ sameAs "BNE" (Some [15; -1]) (Disasm.disassembleInstruction 0xFFFF 0).
Proof.
  split; [vm_compute; reflexivity|]. split; [vm_compute; reflexivity|].
  split; [vm_compute; reflexivity|]. split; [vm_compute; reflexivity|].
  intros [H _]. vm_compute in H. discriminate H.
Qed.

(** The disassembler has no case for the opcodes 0x4 to 0xB: the word of
    AND R1, R2, R3 reads UNKNOWN_4, without operands. *)
Lemma and_reads_unknown :
  fst (Assemble and_line) = Ok [0x4123] /\
  Disasm.Disassemble [0x4123] 0 =
    [Disasm.mkDisassembled 0 0x4123 "UNKNOWN_4" "" "Unknown opcode: 0x4"].
Proof. split; vm_compute; reflexivity. Qed.

End RoundTrip.

(** * The scenarios of the specification, run on the embedding *)

Section Scenarios.
Import VM GoLib Asm AsmSpec.
Local Open Scope string_scope.
Local Open Scope Z_scope.

(** S1: LOADI then HALT. *)
Example s1_loadi_halt :
  fst (Assemble ("LOADI R1, 0x2A" ++ newline ++ "HALT")) = Ok [0xC12A; 0xFFFF] /\
  GetState (run 1000 [0xC12A; 0xFFFF]) =
    mkVMState (<[1%nat := 0x2A]> (replicate 16 0)) 4 0xFFFE 0 0 2 true.
Proof. split; vm_compute; reflexivity. Qed.

(** S2: sign extension on LOADI. *)
Example s2_sign_extension :
  fst (Assemble "LOADI R2, 0xFF") = Ok [0xC2FF] /\
  reg (run 1 [0xC2FF]) 2 = 0xFFFF.
Proof. split; vm_compute; reflexivity. Qed.

(** S4: a forward branch skips one instruction. *)
Example s4_forward_branch :
  fst (Assemble forward_branch) = Ok [0xC100; 0xE101; 0xC201; 0xFFFF] /\
  f_imm8 0xE101 = 1 /\
  reg (run 1000 [0xC100; 0xE101; 0xC201; 0xFFFF]) 2 = 0 /\
  Halted (run 1000 [0xC100; 0xE101; 0xC201; 0xFFFF]) = true.
Proof. repeat split; vm_compute; reflexivity. Qed.

(** S5: a write to R0 is clobbered. *)
Example s5_r0_hardwired :
  fst (Assemble ("LOADI R0, 0x7F" ++ newline ++ "HALT")) = Ok [0xC07F; 0xFFFF] /\
  reg (run 1000 [0xC07F; 0xFFFF]) 0 = 0 /\
  Halted (run 1000 [0xC07F; 0xFFFF]) = true.
Proof. repeat split; vm_compute; reflexivity. Qed.

End Scenarios.

(** * Further properties of the executor *)

(** One goal per opcode, with the tails of the register-writing cases
    opened. *)
Ltac opcode_cases i H :=
  unfold VM.execute;
  destruct (f_opcode_cases i) as
    [H|[H|[H|[H|[H|[H|[H|[H|[H|[H|[H|[H|[H|[H|[H|H]]]]]]]]]]]]]]];
  rewrite H; cbv beta iota zeta;
  unfold VM.write_arith, VM.write_logic, VM.branch;
  try rewrite UpdateFlagsWithCarry_frame; try rewrite UpdateFlags_frame.

Ltac split_ifs :=
  repeat match goal with
         | |- context [if ?b then _ else _] => destruct b eqn:?
         end.

(** A concrete machine is well formed. *)
Ltac wf_by_compute := apply wf_vmb_sound; vm_compute; reflexivity.

Section ExecutorFrame.
Import VM MoreSpec.

Lemma execute_HALT vm : execute 0xFFFF vm = (set_Halted true vm, None).
Proof. reflexivity. Qed.

(** What no case of the switch writes, and the one case that halts. *)
Lemma execute_frame i vm :
  SP (fst (execute i vm)) = SP vm /\
  LR (fst (execute i vm)) = LR vm /\
  CycleCount (fst (execute i vm)) = CycleCount vm /\
  Halted (fst (execute i vm)) = Halted vm || (i =? 0xFFFF).
Proof.
  destruct (Z.eqb_spec i 0xFFFF) as [-> | Hne].
  { rewrite execute_HALT, orb_true_r. done. }
  rewrite orb_false_r.
  opcode_cases i H; split_ifs; try done.
  apply Z.eqb_eq in Heqb. done.
Qed.

Lemma execute_SR i vm :
  f_opcode i = 0 \/ 10 <= f_opcode i ->
  SR (fst (execute i vm)) = SR vm.
Proof.
  intros Hop. opcode_cases i H; rewrite H in Hop; try lia; split_ifs; done.
Qed.

Lemma execute_Memory i vm :
  Memory (fst (execute i vm)) =
  if (f_opcode i =? 0xB) && (mem_address i vm <? lenMemory vm)
  then <[Z.to_nat (mem_address i vm) := reg vm (f_rd i)]> (Memory vm)
  else Memory vm.
Proof.
  unfold mem_address.
  opcode_cases i H; simpl (_ =? 11); cbv iota; cbn [andb]; split_ifs; done.
Qed.

Lemma wrap_int_small c : - 2 ^ 63 <= c < 2 ^ 63 -> wrap_int c = c.
Proof. intros H. unfold wrap_int. rewrite Z.mod_small; lia. Qed.

Lemma Step_ok_running vm :
  wf_vm vm -> Halted vm = false -> snd (Step vm) = None.
Proof.
  intros Hwf Hh. rewrite (Step_running _ Hwf Hh). apply execute_no_error.
Qed.

Lemma Step_CycleCount vm :
  wf_vm vm -> Halted vm = false ->
  - 2 ^ 63 <= CycleCount vm < 2 ^ 63 - 1 ->
  CycleCount (fst (Step vm)) = CycleCount vm + 1.
Proof.
  intros Hwf Hrun Hc. rewrite (Step_running _ Hwf Hrun).
  destruct (execute_frame (mem vm (PC vm / 2))
              (set_CycleCount (wrap_int (CycleCount vm + 1))
                 (set_PC (u16 (PC vm + 2)) vm))) as (_ & _ & -> & _).
  simpl. apply wrap_int_small. lia.
Qed.

Lemma Step_frame vm :
  SP (fst (Step vm)) = SP vm /\ LR (fst (Step vm)) = LR vm.
Proof.
  unfold Step. destruct (Halted vm); [done|].
  unfold Fetch. destruct (_ <=? _);
    match goal with
    | |- context [execute ?i ?v] =>
        destruct (execute_frame i v) as (-> & -> & _)
    end; done.
Qed.

(** X1.  [Step] fails exactly on a halted machine: there it returns the
    error "VM is halted" and changes nothing; on a running machine it
    never returns an error, so the unknown-opcode error of the [default]
    case cannot occur. *)
Theorem Step_fails_iff_halted vm (Hwf : wf_vm vm) :
  if Halted vm then Step vm = (vm, Some "VM is halted"%string)
  else snd (Step vm) = None.
Proof.
  destruct (Halted vm) eqn:Hh.
  - unfold Step. by rewrite Hh.
  - by apply Step_ok_running.
Qed.

Lemma Step_fails_iff_halted_witness :
  let vm := run 5 [0xC12A; 0xFFFF] in
  if Halted vm then Step vm = (vm, Some "VM is halted"%string)
  else snd (Step vm) = None.
Proof. cbv zeta. apply Step_fails_iff_halted. wf_by_compute. Defined.

(** X2.  A step of a running machine adds exactly one to the cycle
    counter, whatever the instruction (the counter is a 64-bit [int]; the
    bound excludes its wrap-around). *)
Theorem Step_counts_one_cycle vm
  (Hwf : wf_vm vm) (Hrun : Halted vm = false)
  (Hc : - 2 ^ 63 <= CycleCount vm < 2 ^ 63 - 1) :
  CycleCount (fst (Step vm)) = CycleCount vm + 1.
Proof. by apply Step_CycleCount. Qed.

Lemma Step_counts_one_cycle_witness :
  let vm := run 1 [0xC12A; 0xFFFF] in
  Halted vm = false /\ CycleCount vm = 1 /\
  CycleCount (fst (Step vm)) = CycleCount vm + 1.
Proof.
  cbv zeta.
  assert (Hh : Halted (run 1 [0xC12A; 0xFFFF]) = false) by (vm_compute; reflexivity).
  assert (Hc : CycleCount (run 1 [0xC12A; 0xFFFF]) = 1) by (vm_compute; reflexivity).
  split; [exact Hh|]. split; [exact Hc|].
  apply Step_counts_one_cycle; [wf_by_compute | exact Hh | rewrite Hc; lia].
Defined.

(** ** The special registers *)

Lemma land_0xFFF0_small sr : 0 <= sr < 16 -> Z.land sr 0xFFF0 = 0.
Proof.
  intros H. apply Z.eqb_eq. revert sr H.
  apply (forall_range (fun sr => Z.land sr 0xFFF0 =? 0) 0 16).
  vm_compute. reflexivity.
Qed.

Lemma flag_word_bound sr z n c :
  0 <= sr < 16 -> (z = 0 \/ z = 1) -> (n = 0 \/ n = 2) -> (c = 0 \/ c = 4) ->
  0 <= Z.lor (Z.lor (Z.lor (Z.land sr 0xFFF0) z) n) c < 8.
Proof.
  intros Hsr Hz Hn Hc. rewrite land_0xFFF0_small by done.
  destruct Hz as [-> | ->], Hn as [-> | ->], Hc as [-> | ->];
    match goal with
    | |- 0 <= ?x < 8 => let v := eval vm_compute in x in change x with v
    end; lia.
Qed.

Lemma execute_SR_bound i vm :
  0 <= SR vm < 8 -> 0 <= SR (fst (execute i vm)) < 8.
Proof.
  intros Hsr. pose proof (f_opcode_range i).
  destruct (Z_le_dec 1 (f_opcode i)) as [H1|H1];
    [destruct (Z_le_dec (f_opcode i) 9) as [H9|H9]|];
    [|rewrite execute_SR by lia; done..].
  destruct (Z_le_dec (f_opcode i) 2).
  - rewrite execute_arith by (unfold is_arith_op; lia). cbn [fst].
    unfold write_arith. rewrite UpdateFlagsWithCarry_SR. cbn [SR set_reg set_Registers].
    apply flag_word_bound; auto using zbit_cases, nbit_cases, cbit_cases. lia.
  - rewrite execute_logic by lia. cbn [fst].
    unfold write_logic. rewrite UpdateFlags_SR. cbn [SR set_reg set_Registers].
    rewrite <- (Z.lor_0_r (Z.lor _ (nbit _))).
    apply flag_word_bound; auto using zbit_cases, nbit_cases. lia.
Qed.

Lemma Step_SR_bound vm : 0 <= SR vm < 8 -> 0 <= SR (fst (Step vm)) < 8.
Proof.
  intros Hsr. unfold Step. destruct (Halted vm); [done|].
  unfold Fetch. destruct (_ <=? _); by apply execute_SR_bound.
Qed.

Lemma LoadProgram_from_frame program : forall i startAddr vm vm',
  LoadProgram_from i program startAddr vm = Some vm' ->
  Registers vm' = Registers vm /\ PC vm' = PC vm /\ SP vm' = SP vm /\
  LR vm' = LR vm /\ SR vm' = SR vm /\ Halted vm' = Halted vm /\
  CycleCount vm' = CycleCount vm.
Proof.
  induction program as [|w ws IH]; intros i a vm vm'; simpl.
  - intros [= <-]. done.
  - destruct (_ <? _); [|done]. intros H. apply IH in H. exact H.
Qed.

(** X3.  No operation of the executor writes SP or LR, and the flag
    updates only ever set the bits 0 to 2 of SR: in every state reached
    from a fresh machine by loads, steps and resets, SP is 0xFFFE, LR is 0
    and SR is below 8 (its reserved bits are 0). *)
Theorem reachable_special_registers vm (Hr : reachable vm) :
  SP vm = 0xFFFE /\ LR vm = 0 /\ 0 <= SR vm < 8.
Proof.
  induction Hr as [|vm vm' p a Hr IH Hp Hl|vm Hr IH|vm Hr IH].
  - vm_compute. repeat split; discriminate.
  - apply LoadProgram_from_frame in Hl as (_ & _ & -> & -> & -> & _). exact IH.
  - destruct (Step_frame vm) as [-> ->]. destruct IH as (? & ? & ?).
    repeat split; try done; by apply Step_SR_bound.
  - simpl. repeat split; lia.
Qed.

Lemma reachable_special_registers_witness :
  reachable (fst (Step (Reset (fst (Step NewVM))))) /\
  SP (fst (Step (Reset (fst (Step NewVM))))) = 0xFFFE /\
  LR (fst (Step (Reset (fst (Step NewVM))))) = 0 /\
  0 <= SR (fst (Step (Reset (fst (Step NewVM))))) < 8.
Proof.
  assert (H : reachable (fst (Step (Reset (fst (Step NewVM)))))).
  { apply reach_step, reach_reset, reach_step, reach_new. }
  split; [exact H|]. exact (reachable_special_registers _ H).
Defined.

(** X4.  NOP, LOAD, STORE, LOADI, JMP, BEQ, BNE and HALT (the opcodes 0
    and 0xA to 0xF) leave SR as it was. *)
Theorem Step_keeps_SR vm
  (Hwf : wf_vm vm) (Hrun : Halted vm = false)
  (Hop : f_opcode (mem vm (PC vm / 2)) = 0 \/ 10 <= f_opcode (mem vm (PC vm / 2))) :
  SR (fst (Step vm)) = SR vm.
Proof. rewrite (Step_running _ Hwf Hrun), execute_SR by done. reflexivity. Qed.

Lemma Step_keeps_SR_witness :
  let vm := run 2 carry_then_loadi in
  SR vm = 5 /\ f_opcode (mem vm (PC vm / 2)) = 12 /\ SR (fst (Step vm)) = SR vm.
Proof.
  cbv zeta.
  assert (Hop : f_opcode (mem (run 2 carry_then_loadi)
                  (PC (run 2 carry_then_loadi) / 2)) = 12)
    by (vm_compute; reflexivity).
  split; [vm_compute; reflexivity|]. split; [exact Hop|].
  apply Step_keeps_SR; [wf_by_compute | vm_compute; reflexivity | rewrite Hop; lia].
Defined.

(** X5.  The memory after a step of a running machine: a STORE writes the
    register [rd] at the word index ((rs + 2*offset) mod 2^16) / 2 and
    nothing else; every other instruction leaves the memory as it was. *)
Theorem Step_Memory vm (Hwf : wf_vm vm) (Hrun : Halted vm = false) :
  let i := mem vm (PC vm / 2) in
  Memory (fst (Step vm)) =
  if f_opcode i =? 0xB
  then <[Z.to_nat (mem_address i vm) := reg vm (f_rd i)]> (Memory vm)
  else Memory vm.
Proof.
  cbv zeta. rewrite (Step_running _ Hwf Hrun), execute_Memory.
  destruct (_ =? 11); [|done]. cbn [andb].
  change (mem_address ?i (set_CycleCount _ (set_PC _ vm))) with (mem_address i vm).
  change (lenMemory (set_CycleCount _ (set_PC _ vm))) with (lenMemory vm).
  rewrite (lenMemory_wf _ Hwf).
  pose proof (mem_address_range (mem vm (PC vm / 2)) vm).
  destruct (Z.ltb_spec (mem_address (mem vm (PC vm / 2)) vm) 32768); [done | lia].
Qed.

Lemma Step_Memory_witness :
  let vm := run 1 store_load in
  let i := mem vm (PC vm / 2) in
  Memory (fst (Step vm)) =
  if f_opcode i =? 0xB
  then <[Z.to_nat (mem_address i vm) := reg vm (f_rd i)]> (Memory vm)
  else Memory vm.
Proof.
  cbv zeta. apply Step_Memory; [wf_by_compute | vm_compute; reflexivity].
Defined.

End ExecutorFrame.

(** * Instructions, program loading and the simulation loop *)

Section ExecutorSteps.
Import VM MoreSpec.

Lemma u16_sub_zero a b : is_u16 a -> is_u16 b -> (u16 (a - b) =? 0) = (a =? b).
Proof.
  unfold is_u16, u16. intros Ha Hb.
  destruct (Z.eqb_spec a b) as [-> | Hne].
  - rewrite Z.sub_diag. reflexivity.
  - apply Z.eqb_neq. intros H. apply Hne.
    revert H. Z.to_euclidean_division_equations. lia.
Qed.

(** X6.  SUB writes (rs - rt) mod 2^16 to [rd] and clobbers R0; it sets
    Z iff the two registers are equal and N to the bit 15 of the
    difference, and it always clears C: no borrow is computed. *)
Theorem SUB_step vm
  (Hwf : wf_vm vm) (Hrun : Halted vm = false)
  (Hop : f_opcode (mem vm (PC vm / 2)) = 0x3) :
  let i := mem vm (PC vm / 2) in
  let a := reg vm (f_rs i) in
  let b := reg vm (f_rt i) in
  let vm' := fst (Step vm) in
  Registers vm' = <[0%nat := 0]> (<[Z.to_nat (f_rd i) := u16 (a - b)]> (Registers vm)) /\
  Z.testbit (SR vm') 0 = (a =? b) /\
  Z.testbit (SR vm') 1 = Z.testbit (u16 (a - b)) 15 /\
  Z.testbit (SR vm') 2 = false.
Proof.
  cbv zeta.
  destruct (logic_step vm Hwf Hrun) as (_ & Hsr & Hregs & _); [lia|].
  cbv zeta in Hsr, Hregs. unfold logic_result in Hsr, Hregs.
  rewrite Hop in Hsr, Hregs. cbv beta iota zeta in Hsr, Hregs.
  rewrite Hsr, Hregs, <- (Z.lor_0_r (Z.lor _ (nbit _))).
  pose proof (wf_SR _ Hwf).
  split; [reflexivity|].
  split; [rewrite flag_word_Z by auto; apply u16_sub_zero; by apply reg_range|].
  split; [apply flag_word_N; auto|].
  rewrite flag_word_C by auto. reflexivity.
Qed.

Lemma SUB_step_witness :
  let vm := run 1 sub_self in
  let i := mem vm (PC vm / 2) in
  let a := reg vm (f_rs i) in
  let b := reg vm (f_rt i) in
  let vm' := fst (Step vm) in
  Registers vm' = <[0%nat := 0]> (<[Z.to_nat (f_rd i) := u16 (a - b)]> (Registers vm)) /\
  Z.testbit (SR vm') 0 = (a =? b) /\
  Z.testbit (SR vm') 1 = Z.testbit (u16 (a - b)) 15 /\
  Z.testbit (SR vm') 2 = false.
Proof.
  cbv zeta. apply SUB_step; [wf_by_compute | vm_compute; reflexivity..].
Defined.

(** ** Branches *)

Lemma signedOffset_int8 v : 0 <= v < 256 -> signedOffset v = int8 v.
Proof.
  intros H. apply Z.eqb_eq. revert v H.
  apply (forall_range (fun v => signedOffset v =? int8 v) 0 256).
  vm_compute. reflexivity.
Qed.

Lemma u16_add_l a b : u16 (u16 a + b) = u16 (a + b).
Proof. unfold u16. by rewrite Zplus_mod_idemp_l. Qed.

Lemma execute_branch i vm :
  f_opcode i = 0xE \/ (f_opcode i = 0xF /\ i <> 0xFFFF) ->
  execute i vm =
  (if (if f_opcode i =? 0xE then reg vm (f_rd i) =? 0 else negb (reg vm (f_rd i) =? 0))
   then set_PC (u16 (PC vm + 2 * int8 (f_imm8 i))) vm
   else vm, None).
Proof.
  intros [Hop | [Hop Hne]]; unfold execute, branch; rewrite Hop; cbv beta iota zeta;
    rewrite (signedOffset_int8 _ (f_imm8_range i)), (Z.mul_comm (int8 _)).
  - reflexivity.
  - apply Z.eqb_neq in Hne. rewrite Hne. simpl (15 =? 14). cbv iota.
    by destruct (reg vm (f_rd i) =? 0).
Qed.

(** X7.  A BEQ is taken iff its register is 0 and a BNE (a word of
    opcode 0xF other than 0xFFFF) iff it is not.  A taken branch sets PC to
    PC + 2 + 2 * imm8, with imm8 read as a signed byte, modulo 2^16; a
    branch not taken sets PC to PC + 2.  Nothing else changes but the
    cycle counter. *)
Theorem branch_step vm
  (Hwf : wf_vm vm) (Hrun : Halted vm = false)
  (Hop : f_opcode (mem vm (PC vm / 2)) = 0xE \/
         (f_opcode (mem vm (PC vm / 2)) = 0xF /\ mem vm (PC vm / 2) <> 0xFFFF)) :
  let i := mem vm (PC vm / 2) in
  let taken := if f_opcode i =? 0xE then reg vm (f_rd i) =? 0
               else negb (reg vm (f_rd i) =? 0) in
  Step vm =
  (mkVM (Registers vm)
        (if taken then u16 (PC vm + 2 + 2 * int8 (f_imm8 i)) else u16 (PC vm + 2))
        (SP vm) (LR vm) (SR vm) (Memory vm) false
        (wrap_int (CycleCount vm + 1)), None).
Proof.
  cbv zeta. rewrite (Step_running _ Hwf Hrun), execute_branch by done.
  change (reg (set_CycleCount _ (set_PC _ vm)) ?r) with (reg vm r).
  destruct (if f_opcode _ =? 14 then _ else _).
  - unfold set_PC, set_CycleCount. cbn [Registers PC SP LR SR Memory Halted CycleCount].
    by rewrite u16_add_l, Hrun.
  - unfold set_PC, set_CycleCount. cbn [Registers PC SP LR SR Memory Halted CycleCount].
    by rewrite Hrun.
Qed.

Lemma branch_step_witness :
  let vm := run 1 forward_branch_code in
  let i := mem vm (PC vm / 2) in
  let taken := if f_opcode i =? 0xE then reg vm (f_rd i) =? 0
               else negb (reg vm (f_rd i) =? 0) in
  Step vm =
  (mkVM (Registers vm)
        (if taken then u16 (PC vm + 2 + 2 * int8 (f_imm8 i)) else u16 (PC vm + 2))
        (SP vm) (LR vm) (SR vm) (Memory vm) false
        (wrap_int (CycleCount vm + 1)), None).
Proof.
  cbv zeta. apply branch_step; [wf_by_compute | vm_compute; reflexivity|].
  left. vm_compute. reflexivity.
Defined.

(** ** A store read back *)

Lemma Step_store vm :
  wf_vm vm -> Halted vm = false -> f_opcode (mem vm (PC vm / 2)) = 0xB ->
  Step vm =
  (set_mem (mem_address (mem vm (PC vm / 2)) vm) (reg vm (f_rd (mem vm (PC vm / 2))))
     (set_CycleCount (wrap_int (CycleCount vm + 1)) (set_PC (u16 (PC vm + 2)) vm)),
   None).
Proof.
  intros Hwf Hrun Hop. rewrite (Step_running _ Hwf Hrun).
  rewrite execute_store; [reflexivity| |done].
  apply wf_set_CycleCount, wf_set_PC; [done | apply u16_range].
Qed.

Lemma Step_load vm :
  wf_vm vm -> Halted vm = false -> f_opcode (mem vm (PC vm / 2)) = 0xA ->
  Registers (fst (Step vm)) =
  <[0%nat := 0]>
    (<[Z.to_nat (f_rd (mem vm (PC vm / 2))) :=
         mem vm (mem_address (mem vm (PC vm / 2)) vm)]> (Registers vm)).
Proof.
  intros Hwf Hrun Hop. rewrite (Step_running _ Hwf Hrun).
  rewrite execute_load; [reflexivity| |done].
  apply wf_set_CycleCount, wf_set_PC; [done | apply u16_range].
Qed.

(** X8.  A STORE followed by a LOAD with the same base register and
    offset reads back the value stored: after the two steps the
    destination of the LOAD (any register but R0) holds what the source
    register of the STORE held. *)
Theorem STORE_then_LOAD vm (Hwf : wf_vm vm) (Hrun : Halted vm = false) :
  let i1 := mem vm (PC vm / 2) in
  let vm1 := fst (Step vm) in
  let i2 := mem vm1 (PC vm1 / 2) in
  f_opcode i1 = 0xB -> f_opcode i2 = 0xA ->
  f_rs i2 = f_rs i1 -> f_offset i2 = f_offset i1 -> f_rd i2 <> 0 ->
  reg (fst (Step vm1)) (f_rd i2) = reg vm (f_rd i1).
Proof.
  cbv zeta. intros Hst. rewrite (Step_store _ Hwf Hrun Hst). cbn [fst].
  set (vm0 := set_CycleCount _ _).
  set (a := mem_address (mem vm (PC vm / 2)) vm).
  set (v := reg vm (f_rd (mem vm (PC vm / 2)))).
  intros Hld Hrs Hoff Hrd.
  assert (Hwf0 : wf_vm vm0).
  { apply wf_set_CycleCount, wf_set_PC; [done | apply u16_range]. }
  assert (Hwf1 : wf_vm (set_mem a v vm0)).
  { apply wf_set_mem; [done | by apply reg_range]. }
  unfold reg at 1. rewrite (Step_load _ Hwf1 Hrun Hld).
  pose proof (f_rd_range (mem (set_mem a v vm0) (PC (set_mem a v vm0) / 2))) as Hr.
  rewrite list_lookup_insert_ne by lia.
  rewrite list_lookup_insert_eq
    by (cbn [Registers set_mem set_Memory vm0 set_CycleCount set_PC];
        rewrite (wf_regs_len _ Hwf); lia).
  change (default 0 (Some ?x)) with x. unfold mem_address at 1. rewrite Hrs, Hoff.
  change (reg (set_mem a v vm0) ?r) with (reg vm r).
  fold (mem_address (mem vm (PC vm / 2)) vm).
  fold a. unfold mem. cbn [Memory set_mem set_Memory].
  rewrite list_lookup_insert_eq; [done|].
  pose proof (mem_address_range (mem vm (PC vm / 2)) vm) as Ha. fold a in Ha.
  cbn [Memory vm0 set_CycleCount set_PC].
  pose proof (wf_mem_len _ Hwf). unfold memLen in *. lia.
Qed.

Lemma STORE_then_LOAD_witness :
  let vm := run 1 store_load in
  let i1 := mem vm (PC vm / 2) in
  let vm1 := fst (Step vm) in
  let i2 := mem vm1 (PC vm1 / 2) in
  reg (fst (Step vm1)) (f_rd i2) = reg vm (f_rd i1).
Proof.
  cbv zeta. apply (STORE_then_LOAD (run 1 store_load));
    [wf_by_compute | vm_compute; reflexivity..|].
  vm_compute. discriminate.
Defined.

End ExecutorSteps.

Section Loading.
Import VM MoreSpec.

Lemma set_Memory_id vm : set_Memory (Memory vm) vm = vm.
Proof. by destruct vm. Qed.

Lemma splice_step (M : list Z) n w ws :
  (n < length M)%nat ->
  take (S n) (<[n := w]> M) ++ ws ++ drop (S n + length ws) (<[n := w]> M) =
  take n M ++ (w :: ws) ++ drop (n + length (w :: ws)) M.
Proof.
  intros Hn.
  rewrite (take_S_r _ _ w) by (by apply list_lookup_insert_eq).
  rewrite take_insert_ge by lia. rewrite drop_insert_lt by lia.
  rewrite <- app_assoc. simpl. by rewrite Nat.add_succ_r.
Qed.

Lemma LoadProgram_from_fits program startAddr : forall i vm,
  is_u16 startAddr -> Z.of_nat (length (Memory vm)) = memLen -> 0 <= i ->
  startAddr / 2 + i + Z.of_nat (length program) <= memLen ->
  LoadProgram_from i program startAddr vm =
  Some (set_Memory
          (take (Z.to_nat (startAddr / 2 + i)) (Memory vm) ++ program ++
           drop (Z.to_nat (startAddr / 2 + i) + length program) (Memory vm)) vm).
Proof.
  unfold memLen.
  induction program as [|w ws IH]; intros i vm Ha Hlen Hi Hfit.
  - simpl. rewrite Nat.add_0_r, take_drop. by rewrite set_Memory_id.
  - pose proof (pc_index_in_range _ Ha) as Hb.
    cbn [LoadProgram_from]. cbn [length] in Hfit.
    assert (Hidx : u16 (startAddr / 2 + u16 i) = startAddr / 2 + i).
    { unfold u16. rewrite (Z.mod_small i) by lia. apply Z.mod_small. lia. }
    rewrite Hidx.
    destruct (Z.ltb_spec (startAddr / 2 + i) (Z.of_nat (length (Memory vm)))); [|lia].
    rewrite IH; try done; try lia.
    + cbn [Memory set_mem set_Memory]. unfold set_mem, set_Memory.
      cbn [Registers PC SP LR SR Halted CycleCount Memory]. do 2 f_equal.
      replace (Z.to_nat (startAddr / 2 + (i + 1)))
        with (S (Z.to_nat (startAddr / 2 + i))) by lia.
      apply splice_step. lia.
    + cbn [Memory set_mem set_Memory]. by rewrite length_insert.
Qed.

Lemma LoadProgram_from_overflows program startAddr : forall i vm,
  is_u16 startAddr -> Z.of_nat (length (Memory vm)) = memLen -> 0 <= i ->
  startAddr / 2 + i <= memLen ->
  memLen < startAddr / 2 + i + Z.of_nat (length program) ->
  LoadProgram_from i program startAddr vm = None.
Proof.
  unfold memLen.
  induction program as [|w ws IH]; intros i vm Ha Hlen Hi Hle Hover.
  - simpl in Hover. lia.
  - pose proof (pc_index_in_range _ Ha) as Hb.
    cbn [LoadProgram_from]. cbn [length] in Hover.
    assert (Hidx : u16 (startAddr / 2 + u16 i) = startAddr / 2 + i).
    { unfold u16. rewrite (Z.mod_small i) by lia. apply Z.mod_small. lia. }
    rewrite Hidx.
    destruct (Z.ltb_spec (startAddr / 2 + i) (Z.of_nat (length (Memory vm)))); [|done].
    apply IH; try done; try lia.
    cbn [Memory set_mem set_Memory]. by rewrite length_insert.
Qed.

(** X9.  [LoadProgram] succeeds iff the program fits between the word
    index startAddr/2 and the end of the memory.  When it fits, the program
    replaces exactly the words from startAddr/2 on, the rest of the memory
    and the registers, PC, SP, LR, SR, the halted flag and the cycle counter
    are unchanged (an odd start address loads at the same word as the even
    address below it).  When it does not fit, the write past the array
    panics. *)
Theorem LoadProgram_spec program startAddr vm
  (Hwf : wf_vm vm) (Ha : is_u16 startAddr) :
  if Z.of_nat (length program) <=? memLen - startAddr / 2
  then LoadProgram program startAddr vm =
       Some (set_Memory
               (take (Z.to_nat (startAddr / 2)) (Memory vm) ++ program ++
                drop (Z.to_nat (startAddr / 2) + length program) (Memory vm)) vm)
  else LoadProgram program startAddr vm = None.
Proof.
  pose proof (pc_index_in_range _ Ha) as Hb. unfold LoadProgram.
  destruct (Z.leb_spec (Z.of_nat (length program)) (memLen - startAddr / 2)).
  - rewrite LoadProgram_from_fits; try done; try lia; [|apply (wf_mem_len _ Hwf)].
    by rewrite Z.add_0_r.
  - apply LoadProgram_from_overflows; try done; try (unfold memLen in *; lia).
    apply (wf_mem_len _ Hwf).
Qed.

Lemma LoadProgram_spec_witness :
  if Z.of_nat (length store_load) <=? memLen - 0xFFFB / 2
  then LoadProgram store_load 0xFFFB NewVM =
       Some (set_Memory
               (take (Z.to_nat (0xFFFB / 2)) (Memory NewVM) ++ store_load ++
                drop (Z.to_nat (0xFFFB / 2) + length store_load) (Memory NewVM)) NewVM)
  else LoadProgram store_load 0xFFFB NewVM = None.
Proof. apply LoadProgram_spec; [apply wf_NewVM | unfold is_u16; lia]. Defined.

(** ** The loop of the simulate handler *)

Lemma steps_S_l k vm : steps (S k) vm = steps k (fst (Step vm)).
Proof. unfold steps. by rewrite Nat.iter_succ_r. Qed.

Lemma simulate_running n vm :
  wf_vm vm -> Halted vm = false ->
  simulate (S n) vm =
  (GetState (fst (Step vm)) :: fst (simulate n (fst (Step vm))),
   snd (simulate n (fst (Step vm)))).
Proof.
  intros Hwf Hrun. cbn [simulate]. rewrite Hrun.
  pose proof (Step_ok_running vm Hwf Hrun) as Herr.
  destruct (Step vm) as [vm' err]. simpl in Herr. subst err. cbn [fst].
  by destruct (simulate n vm').
Qed.

(** X10.  The loop of [simulateHandler], run with a budget of [n] cycles:
    it makes some number m <= n of steps; the final state is the state
    after m steps and the history is the list of the snapshots after the
    steps 1 to m, the halting step included; no state before the m-th step
    is halted; the loop stops early (m < n) only on a halted machine; and
    the cycle counter grows by m.  No step of the loop fails. *)
Theorem simulate_loop n vm
  (Hwf : wf_vm vm) (Hc : 0 <= CycleCount vm)
  (Hn : CycleCount vm + Z.of_nat n < 2 ^ 63) :
  let h := fst (simulate n vm) in
  let vm' := snd (simulate n vm) in
  vm' = steps (length h) vm /\
  h = (fun k => GetState (steps (S k) vm)) <$> seq 0 (length h) /\
  (length h <= n)%nat /\
  (forall k, (k < length h)%nat -> Halted (steps k vm) = false) /\
  ((length h < n)%nat -> Halted vm' = true) /\
  CycleCount vm' = CycleCount vm + Z.of_nat (length h).
Proof.
  revert vm Hwf Hc Hn. induction n as [|n IH]; intros vm Hwf Hc Hn; cbv zeta.
  - simpl. repeat split; lia.
  - destruct (Halted vm) eqn:Hrun.
    + cbn [simulate]. rewrite Hrun. simpl. repeat split; try lia; auto.
    + rewrite (simulate_running _ _ Hwf Hrun). cbn [fst snd length].
      pose proof (Step_CycleCount vm Hwf Hrun ltac:(lia)) as Hcyc.
      destruct (IH (fst (Step vm))) as (H1 & H2 & H3 & H4 & H5 & H6);
        [by apply wf_Step | lia | lia |].
      cbv zeta in *. repeat split.
      * by rewrite steps_S_l.
      * cbn [seq fmap list_fmap]. f_equal.
        rewrite <- seq_shift, <- list_fmap_compose.
        rewrite H2 at 1. apply list_fmap_ext. intros _ k _. unfold compose.
        by rewrite (steps_S_l (S k)).
      * lia.
      * intros [|k] Hk; [exact Hrun|]. rewrite steps_S_l. apply H4. lia.
      * intros Hlt. apply H5. lia.
      * rewrite H6, Hcyc. lia.
Qed.

Lemma simulate_loop_witness :
  let vm := load forward_branch_code in
  let h := fst (simulate 1000 vm) in
  let vm' := snd (simulate 1000 vm) in
  vm' = steps (length h) vm /\
  h = (fun k => GetState (steps (S k) vm)) <$> seq 0 (length h) /\
  (length h <= 1000)%nat /\
  (forall k, (k < length h)%nat -> Halted (steps k vm) = false) /\
  ((length h < 1000)%nat -> Halted vm' = true) /\
  CycleCount vm' = CycleCount vm + Z.of_nat (length h).
Proof.
  cbv zeta.
  assert (Hc : CycleCount (load forward_branch_code) = 0) by (vm_compute; reflexivity).
  apply (simulate_loop 1000 (load forward_branch_code));
    [wf_by_compute | rewrite Hc; lia | rewrite Hc; lia].
Defined.

End Loading.

(** * Further properties of the assembler *)

Ltac table_cases H :=
  unfold MoreSpec.opcodeTable in H;
  repeat (apply elem_of_cons in H as [H | H]; [injection H as -> ->|]);
  [..|by apply elem_of_nil in H].

Ltac in_list := repeat first [apply list_elem_of_here | apply list_elem_of_further].

Section Encoder.
Import GoLib Asm AsmSpec MoreSpec.
Local Open Scope string_scope.
Local Open Scope Z_scope.

Lemma Opcodes_Some op c : Opcodes !! op = Some c -> (op, c) ∈ opcodeTable.
Proof. intros H. by apply elem_of_list_to_map_2 in H. Qed.

Lemma encode_NOT labels instr :
  Opcode instr = "NOT" ->
  encodeInstruction labels instr =
  (let* o0 := operand instr 0 in
   let* o1 := operand instr 1 in
   Ok (Z.lor (Z.lor (shl16 0x7 12) (shl16 (parseRegister o0) 8))
             (shl16 (parseRegister o1) 4))).
Proof. intros H. unfold encodeInstruction. rewrite H. reflexivity. Qed.

Lemma encode_mem labels instr opcode :
  (Opcode instr, opcode) ∈ [("LOAD", 0xA); ("STORE", 0xB)] ->
  encodeInstruction labels instr =
  (let* o0 := operand instr 0 in
   let* o1 := operand instr 1 in
   let* o2 := operand instr 2 in
   Ok (Z.lor (Z.lor (Z.lor (shl16 opcode 12) (shl16 (parseRegister o0) 8))
                    (shl16 (parseRegister o1) 4))
             (u16 (Z.land (parseImmediate o2) 0xF)))).
Proof.
  intros H. unfold encodeInstruction.
  repeat (apply elem_of_cons in H as [[= -> ->] | H]; [reflexivity|]).
  by apply elem_of_nil in H.
Qed.

Lemma shl16_range x n : VM.is_u16 (shl16 x n).
Proof. apply u16_range. Qed.

Lemma parseRegister_range s : 0 <= parseRegister s < 256.
Proof.
  unfold parseRegister. destruct (HasPrefix _ _); [|lia].
  unfold u8. apply Z.mod_pos_bound. lia.
Qed.

Lemma is_u16_small x : 0 <= x < 65536 -> VM.is_u16 x.
Proof. done. Qed.

(** The outcomes of the encoder for a mnemonic of the table. *)
Lemma encode_known labels instr c :
  Opcodes !! Opcode instr = Some c ->
  match arity (Opcode instr) with
  | Some k =>
      if (length (Operands instr) <? k)%nat
      then encodeInstruction labels instr = Panic
      else exists w, encodeInstruction labels instr = Ok w /\ 0 <= w < 65536
  | None => False
  end.
Proof.
  intros H. apply Opcodes_Some in H.
  destruct instr as [lbl op ops addr]. cbn [Opcode Operands] in *.
  table_cases H;
    match goal with
    | |- context [arity ?op] =>
        let a := eval vm_compute in (arity op) in change (arity op) with a
    end; cbv iota.
  all: try (destruct ops as [|o0 ops]; [reflexivity|]).
  all: try (destruct ops as [|o1 ops]; [reflexivity|]).
  all: try (destruct ops as [|o2 ops]; [reflexivity|]).
  all: cbn [length Nat.ltb Nat.leb]; eexists; (split; [reflexivity|]).
  all: change (0 <= ?x < 65536) with (VM.is_u16 x).
  all: repeat apply is_u16_lor; try apply shl16_range; try apply u16_range.
  all: try (apply is_u16_small; lia).
  all: try (apply is_u16_small; pose proof (parseRegister_range o2); lia).
  all: match goal with
       | |- VM.is_u16 (Z.land ?x 4095) =>
           apply is_u16_small; pose proof (land_0xFFF x); lia
       | |- VM.is_u16 (Z.land ?x 255) =>
           apply is_u16_small; pose proof (land_0xFF x); lia
       end.
Qed.

Lemma encode_Error_inv labels instr msg :
  encodeInstruction labels instr = Error msg ->
  Opcodes !! Opcode instr = None /\ msg = "unknown opcode: " ++ Opcode instr.
Proof.
  intros H. destruct (Opcodes !! Opcode instr) as [c|] eqn:E.
  - exfalso. pose proof (encode_known labels instr c E) as K.
    destruct (arity (Opcode instr)); [|done].
    destruct (_ <? _)%nat; [congruence|].
    destruct K as (w & Hw & _). congruence.
  - split; [done|]. unfold encodeInstruction in H. rewrite E in H. congruence.
Qed.

Lemma encode_Panic_inv labels instr :
  encodeInstruction labels instr = Panic ->
  exists k, arity (Opcode instr) = Some k /\
            (length (Operands instr) < k)%nat.
Proof.
  intros H. destruct (Opcodes !! Opcode instr) as [c|] eqn:E.
  - pose proof (encode_known labels instr c E) as K.
    destruct (arity (Opcode instr)) as [k|]; [|done].
    exists k. split; [done|].
    destruct (Nat.ltb_spec (length (Operands instr)) k); [done|].
    destruct K as (w & Hw & _). congruence.
  - unfold encodeInstruction in H. rewrite E in H. discriminate.
Qed.

(** ** Undefined labels *)

(** C3, as the code has it.  A label operand that is not in the label
    table is not an error, for JMP, BEQ and BNE alike: the encoder reads
    it as a number with [parseImmediate] and returns the code word with
    the low 12 bits (JMP) or the low 8 bits (BEQ, BNE) of that number.
    The only error of the encoder is the one for a mnemonic outside the
    opcode table; none is about a label.  The text "nowhere" is read as
    0, so [JMP nowhere / HALT] assembles to the two words 0xD000 and
    0xFFFF, with an empty label table. *)
Theorem undefined_label_assembles labels instr l
  (Hlabel : labels !! l = None) :
  (Opcode instr = "JMP" -> Operands instr !! 0%nat = Some l ->
   encodeInstruction labels instr =
     Ok (Z.lor 0xD000 (Z.land (u16 (parseImmediate l)) 0xFFF))) /\
  (forall opcode o0,
     (Opcode instr, opcode) ∈ [("BEQ", 0xE); ("BNE", 0xF)] ->
     Operands instr !! 0%nat = Some o0 -> Operands instr !! 1%nat = Some l ->
     encodeInstruction labels instr =
       Ok (Z.lor (Z.lor (shl16 opcode 12) (shl16 (parseRegister o0) 8))
                 (Z.land (u16 (parseImmediate l)) 0xFF))) /\
  (forall msg, encodeInstruction labels instr = Error msg ->
     Opcodes !! Opcode instr = None /\
     msg = "unknown opcode: " ++ Opcode instr) /\
  parseImmediate "nowhere" = 0 /\
  Assemble jmp_nowhere =
    (Ok [0xD000; 0xFFFF],
     mkAssembler ∅ [mkInstruction "" "JMP" ["nowhere"] 0;
                    mkInstruction "" "HALT" [] 2] 4).
Proof.
  split; [|split; [|split; [|split; vm_compute; reflexivity]]].
  - intros Hop Hops.
    rewrite (encode_JMP _ _ Hop), (operand_Some _ _ _ Hops). simpl.
    by rewrite Hlabel.
  - intros opcode o0 Hop Hrc Hl.
    rewrite (encode_branch _ _ _ Hop), (operand_Some _ _ _ Hrc). simpl.
    rewrite (operand_Some _ _ _ Hl). simpl. by rewrite Hlabel.
  - apply encode_Error_inv.
Qed.

(** C3 as stated fails: the assembly of S6 returns code and no error. *)
Lemma jmp_nowhere_no_error :
  (Labels (firstPass jmp_nowhere) : gmap string Z) !! "nowhere" = None /\
  ~ (exists msg, fst (Assemble jmp_nowhere) = Error msg) /\
  fst (Assemble jmp_nowhere) <> Ok [].
Proof.
  split; [vm_compute; reflexivity|].
  split; [intros [msg H]|intros H]; vm_compute in H; discriminate H.
Qed.

Lemma undefined_label_assembles_witness :
  encodeInstruction ∅ (mkInstruction "" "JMP" ["nowhere"] 0) =
    Ok (Z.lor 0xD000 (Z.land (u16 (parseImmediate "nowhere")) 0xFFF)) /\
  encodeInstruction ∅ (mkInstruction "loop" "BNE" ["R2"; "nowhere"] 4) =
    Ok (Z.lor (Z.lor (shl16 0xF 12) (shl16 (parseRegister "R2") 8))
              (Z.land (u16 (parseImmediate "nowhere")) 0xFF)).
Proof.
  split.
  - apply (undefined_label_assembles ∅ (mkInstruction "" "JMP" ["nowhere"] 0)
             "nowhere"); reflexivity.
  - apply (undefined_label_assembles ∅
             (mkInstruction "loop" "BNE" ["R2"; "nowhere"] 4) "nowhere");
      [reflexivity | apply list_elem_of_further, list_elem_of_here
      | reflexivity | reflexivity].
Defined.

(** X11.  The encoder returns an error exactly for a mnemonic that is not
    in the opcode table, and the message is "unknown opcode: " followed by
    the mnemonic; its second error, "cannot encode instruction", is never
    returned, and no operand text makes the encoder return an error. *)
Theorem encode_error_iff_unknown labels instr msg :
  encodeInstruction labels instr = Error msg <->
  Opcodes !! Opcode instr = None /\ msg = "unknown opcode: " ++ Opcode instr.
Proof.
  split; [apply encode_Error_inv|].
  intros [E ->]. unfold encodeInstruction. by rewrite E.
Qed.

Lemma encode_error_iff_unknown_witness :
  encodeInstruction ∅ (mkInstruction "" "MOV" ["R1"; "R2"] 0) =
  Error "unknown opcode: MOV".
Proof.
  apply (proj2 (encode_error_iff_unknown ∅ (mkInstruction "" "MOV" ["R1"; "R2"] 0)
                  "unknown opcode: MOV")).
  split; [vm_compute; reflexivity | reflexivity].
Defined.

(** X12.  For a mnemonic of the opcode table with at least as many
    operands as it takes, the encoder returns a code word, and the word is
    below 2^16, whatever the text of the operands and the label table: a
    malformed or oversized register or number is never rejected. *)
Theorem encode_succeeds labels instr c k
  (Hop : Opcodes !! Opcode instr = Some c)
  (Har : arity (Opcode instr) = Some k)
  (Hlen : (k <= length (Operands instr))%nat) :
  exists w, encodeInstruction labels instr = Ok w /\ 0 <= w < 65536.
Proof.
  pose proof (encode_known labels instr c Hop) as K. rewrite Har in K.
  destruct (Nat.ltb_spec (length (Operands instr)) k); [lia | exact K].
Qed.

Lemma encode_succeeds_witness :
  exists w, encodeInstruction ∅ (mkInstruction "" "STORE" ["R1"; "oops"; "0x1234"; "x"] 0)
            = Ok w /\ 0 <= w < 65536.
Proof.
  apply (encode_succeeds ∅ _ 0xB 3);
    [vm_compute; reflexivity | reflexivity | simpl; lia].
Defined.

(** ** The second pass *)

Lemma secondPassFrom_acc labels instrs : forall acc,
  secondPassFrom labels instrs acc =
  (let* code := secondPassFrom labels instrs [] in Ok (acc ++ code)%list).
Proof.
  induction instrs as [|i rest IH]; intros acc; cbn [secondPassFrom bind].
  - by rewrite app_nil_r.
  - destruct (encodeInstruction labels i) as [w| |]; cbn [bind]; try done.
    rewrite (IH (acc ++ [w])%list), (IH ([] ++ [w])%list).
    destruct (secondPassFrom labels rest []); cbn [bind]; try done.
    by rewrite <- app_assoc.
Qed.

Lemma secondPassFrom_Forall2 labels instrs code :
  secondPassFrom labels instrs [] = Ok code <->
  Forall2 (fun i w => encodeInstruction labels i = Ok w) instrs code.
Proof.
  revert code.
  induction instrs as [|i rest IH]; intros code; cbn [secondPassFrom bind].
  - split; [intros [= <-]; constructor | by intros ->%Forall2_nil_inv_l].
  - destruct (encodeInstruction labels i) as [w| |] eqn:E; cbn [bind].
    + rewrite secondPassFrom_acc.
      destruct (secondPassFrom labels rest []) as [ws| |] eqn:E'; cbn [bind app].
      * split.
        -- intros [= <-]. constructor; [done|]. by apply IH.
        -- intros H. apply Forall2_cons_inv_l in H as (w' & ws' & Hw & Hws & ->).
           apply IH in Hws. congruence.
      * split; [done|]. intros H.
        apply Forall2_cons_inv_l in H as (w' & ws' & Hw & Hws & ->).
        apply IH in Hws. congruence.
      * split; [done|]. intros H.
        apply Forall2_cons_inv_l in H as (w' & ws' & Hw & Hws & ->).
        apply IH in Hws. congruence.
    + split; [done|]. intros H.
      apply Forall2_cons_inv_l in H as (w' & ws' & Hw & Hws & ->). congruence.
    + split; [done|]. intros H.
      apply Forall2_cons_inv_l in H as (w' & ws' & Hw & Hws & ->). congruence.
Qed.

(** The first instruction that does not encode decides a failure. *)
Lemma secondPassFrom_fails labels instrs :
  match secondPassFrom labels instrs [] with
  | Ok _ => True
  | Error msg => exists i, i ∈ instrs /\ encodeInstruction labels i = Error msg
  | Panic => exists i, i ∈ instrs /\ encodeInstruction labels i = Panic
  end.
Proof.
  induction instrs as [|i rest IH]; cbn [secondPassFrom bind]; [done|].
  destruct (encodeInstruction labels i) as [w| |] eqn:E; cbn [bind].
  - rewrite secondPassFrom_acc.
    destruct (secondPassFrom labels rest []) as [ws| |]; cbn [bind]; [done|..];
      destruct IH as (j & Hj & Ej); exists j; (split; [by right | done]).
  - exists i. split; [by left | done].
  - exists i. split; [by left | done].
Qed.

(** X13.  The second pass returns code iff every instruction encodes,
    and then the code has one word per instruction, in order, each the
    encoding of its instruction: a failure of one instruction leaves no
    partial code. *)
Theorem secondPass_pointwise a code :
  secondPass a = Ok code <->
  Forall2 (fun i w => encodeInstruction (Labels a) i = Ok w)
    (Instructions a) code.
Proof. apply secondPassFrom_Forall2. Qed.

Lemma secondPass_pointwise_witness :
  Forall2 (fun i w => encodeInstruction (Labels (firstPass forward_branch)) i = Ok w)
    (Instructions (firstPass forward_branch)) [0xC100; 0xE101; 0xC201; 0xFFFF].
Proof.
  apply (proj1 (secondPass_pointwise _ _)). vm_compute. reflexivity.
Defined.

End Encoder.

(** * The first pass *)

Section FirstPass.
Import GoLib Asm AsmSpec MoreSpec.
Local Open Scope string_scope.
Local Open Scope Z_scope.

Lemma layout_label a l :
  layout a ->
  layout (mkAssembler (<[l := asmAddress a]> (Labels a)) (Instructions a)
            (asmAddress a)).
Proof.
  intros (H1 & H2 & H3).
  split; [|split]; cbn [asmAddress Instructions Labels]; try done.
  intros l' v. rewrite lookup_insert. case_decide.
  - intros [= <-]. exists (length (Instructions a)). split; [lia | exact H1].
  - apply H3.
Qed.

Lemma layout_append a lbl op ops :
  layout a ->
  layout (mkAssembler (Labels a)
            (Instructions a ++ [mkInstruction lbl op ops (asmAddress a)])%list
            (u16 (asmAddress a + 2))).
Proof.
  intros (H1 & H2 & H3). split; [|split]; cbn [asmAddress Instructions Labels].
  - rewrite H1, length_app. cbn [length]. unfold u16.
    rewrite Zplus_mod_idemp_l. f_equal. lia.
  - intros k i Hk. apply lookup_app_Some in Hk as [Hk | [Hge Hk]]; [by apply H2|].
    apply list_lookup_singleton_Some in Hk as [Hk <-]. cbn [Asm.Address].
    rewrite H1. do 2 f_equal. lia.
  - intros l v Hl. destruct (H3 l v Hl) as (j & Hj & ->).
    exists j. split; [|done]. rewrite length_app. lia.
Qed.

Lemma firstPassLine_layout a line : layout a -> layout (firstPassLine a line).
Proof.
  intros Ha. unfold firstPassLine.
  destruct (isEmpty (TrimSpace _)); [done|].
  destruct (Contains ":" _).
  - destruct (SplitN2 ":" _) as [p0 p1].
    destruct (isEmpty (TrimSpace p1)).
    + by apply layout_label.
    + apply (layout_append (mkAssembler _ _ _)). by apply layout_label.
  - destruct (isEmpty _); [done|]. by apply layout_append.
Qed.

Lemma foldl_layout lines : forall a,
  layout a -> layout (foldl firstPassLine a lines).
Proof.
  induction lines as [|l ls IH]; intros a Ha; simpl; [done|].
  apply IH. by apply firstPassLine_layout.
Qed.

Lemma firstPass_has_layout source : layout (firstPass source).
Proof.
  apply foldl_layout. split; [|split]; simpl.
  - reflexivity.
  - intros k i H. by rewrite lookup_nil in H.
  - intros l v H. by rewrite lookup_empty in H.
Qed.

(** X14.  Whatever the source text, the first pass numbers the
    instructions it records by two: the instruction of index k has the
    address 2k mod 2^16, the final address counter is twice the number of
    instructions mod 2^16, and every label is bound to the address of a
    recorded instruction or to the address after the last one.  Lines
    without an instruction (blank, comment, a label alone) take no
    address. *)
Theorem firstPass_layout source :
  let a := firstPass source in
  asmAddress a = u16 (2 * Z.of_nat (length (Instructions a))) /\
  (forall k i, Instructions a !! k = Some i ->
     Asm.Address i = u16 (2 * Z.of_nat k)) /\
  (forall l v, Labels a !! l = Some v ->
     exists j, (j <= length (Instructions a))%nat /\ v = u16 (2 * Z.of_nat j)).
Proof. apply firstPass_has_layout. Qed.

(** ** Comments *)

Lemma Index_app_sep sep body rest :
  Index sep body = None ->
  Index sep (body ++ String sep rest) = Some (String.length body) /\
  sliceTo (String.length body) (body ++ String sep rest) = body.
Proof.
  induction body as [|c body IH]; simpl.
  - intros _. by rewrite Ascii.eqb_refl.
  - destruct (Ascii.eqb c sep); [done|].
    destruct (Index sep body) eqn:E; [done|]. intros _.
    destruct (IH eq_refl) as [-> ->]. done.
Qed.

(** X15.  A line is cut at its first semicolon: for a text without a
    semicolon, appending a semicolon and anything after it leaves the
    effect of the line on the assembler state unchanged (labels,
    instructions and address counter). *)
Theorem comment_ignored a body comment
  (Hbody : Index ";" body = None) :
  firstPassLine a (body ++ String ";" comment) = firstPassLine a body.
Proof.
  unfold firstPassLine.
  destruct (Index_app_sep ";" body comment Hbody) as [-> ->].
  by rewrite Hbody.
Qed.

Lemma comment_ignored_witness :
  firstPassLine NewAssembler ("top: ADD R1, R2, R3 " ++ String ";" " sum; twice") =
  firstPassLine NewAssembler "top: ADD R1, R2, R3 ".
Proof. apply comment_ignored. reflexivity. Defined.

(** ** The two passes together *)

(** X23.  The three outcomes of [Assemble], for any source text.  When it
    returns code, the code has one word per recorded instruction, and the
    word of index k is the encoding of the instruction the first pass
    placed at the address 2k mod 2^16, so that a label's address is twice
    the index of the word that follows it.  When it returns an error, some
    line has a mnemonic outside the opcode table and the message is
    "unknown opcode: " followed by that mnemonic.  Otherwise it panics on
    an operand index out of range: some instruction has fewer operands
    than its mnemonic takes. *)
Theorem Assemble_outcome source :
  let a := snd (Assemble source) in
  match fst (Assemble source) with
  | Ok code =>
      length code = length (Instructions a) /\
      forall k w, code !! k = Some w ->
        exists i, Instructions a !! k = Some i /\
          Asm.Address i = u16 (2 * Z.of_nat k) /\
          encodeInstruction (Labels a) i = Ok w
  | Error msg =>
      exists i, i ∈ Instructions a /\ Opcodes !! Opcode i = None /\
        msg = "unknown opcode: " ++ Opcode i
  | Panic =>
      exists i k, i ∈ Instructions a /\ arity (Opcode i) = Some k /\
        (length (Operands i) < k)%nat
  end.
Proof.
  cbv zeta. unfold Assemble. cbn [fst snd]. unfold secondPass.
  set (a := firstPass source).
  pose proof (firstPass_has_layout source) as (_ & Haddr & _). fold a in Haddr.
  pose proof (secondPassFrom_fails (Labels a) (Instructions a)) as Hf.
  destruct (secondPassFrom (Labels a) (Instructions a) []) as [code|msg|] eqn:E.
  - apply secondPassFrom_Forall2 in E. split.
    + symmetry. by eapply Forall2_length.
    + intros k w Hk.
      destruct (Forall2_lookup_r _ _ _ _ _ E Hk) as (i & Hi & Hw).
      exists i. split; [done|]. split; [by apply Haddr | done].
  - destruct Hf as (i & Hi & Hw). apply encode_Error_inv in Hw as [Hop ->].
    by exists i.
  - destruct Hf as (i & Hi & Hw). apply encode_Panic_inv in Hw as (k & Hk & Hlen).
    by exists i, k.
Qed.

End FirstPass.

(** * Further properties of the disassembler *)

Section Disassembler.
Import GoLib Asm AsmSpec MoreSpec.
Local Open Scope string_scope.
Local Open Scope Z_scope.

Lemma disassemble_fields w addr :
  Disasm.Address (Disasm.disassembleInstruction w addr) = addr /\
  Disasm.MachineCode (Disasm.disassembleInstruction w addr) = w.
Proof.
  unfold Disasm.disassembleInstruction.
  destruct (w =? 0); [done|]. destruct (w =? 65535); [done|].
  by destruct (Disasm.decodeText w) as [[m o] c].
Qed.

Lemma Disassemble_lookup code : forall start k w,
  VM.is_u16 start -> code !! k = Some w ->
  Disasm.Disassemble code start !! k =
  Some (Disasm.disassembleInstruction w (u16 (start + 2 * Z.of_nat k))).
Proof.
  induction code as [|w0 ws IH]; intros start k w Hs Hk; [done|].
  destruct k as [|k]; simpl in *.
  - injection Hk as ->. by rewrite Z.add_0_r, u16_id.
  - rewrite (IH _ _ _ (u16_range _) Hk). do 2 f_equal.
    rewrite u16_add_l. f_equal. lia.
Qed.

Lemma Disassemble_length code : forall start,
  length (Disasm.Disassemble code start) = length code.
Proof.
  induction code as [|w ws IH]; intros start; simpl; [done|]. by rewrite IH.
Qed.

(** X16.  [Disassemble] returns one record per code word, in order; the
    record of index k is the disassembly of the word of index k at the
    address start + 2k mod 2^16, and it carries that address and the word
    itself. *)
Theorem Disassemble_records code start (Hs : VM.is_u16 start) :
  length (Disasm.Disassemble code start) = length code /\
  forall k w, code !! k = Some w ->
    exists d, Disasm.Disassemble code start !! k = Some d /\
      d = Disasm.disassembleInstruction w (u16 (start + 2 * Z.of_nat k)) /\
      Disasm.Address d = u16 (start + 2 * Z.of_nat k) /\
      Disasm.MachineCode d = w.
Proof.
  split; [apply Disassemble_length|]. intros k w Hk.
  eexists. split; [by apply Disassemble_lookup|].
  split; [done|]. apply disassemble_fields.
Qed.

Lemma Disassemble_records_witness :
  let code := [0xC105; 0x0000; 0xFFFF] in
  let start := 0xFFFE in
  length (Disasm.Disassemble code start) = length code /\
  forall k w, code !! k = Some w ->
    exists d, Disasm.Disassemble code start !! k = Some d /\
      d = Disasm.disassembleInstruction w (u16 (start + 2 * Z.of_nat k)) /\
      Disasm.Address d = u16 (start + 2 * Z.of_nat k) /\
      Disasm.MachineCode d = w.
Proof. cbv zeta. apply Disassemble_records. unfold VM.is_u16. lia. Defined.

(** ** Reassembling a disassembled word *)

Lemma reassemble_decoded :
  forallb check_reassemble [0x1; 0x2; 0x3; 0xC; 0xD; 0xE; 0xF] = true.
Proof. vm_compute. reflexivity. Qed.

Lemma f_opcode_div w : 0 <= w < 65536 -> VM.f_opcode w = w / 4096.
Proof.
  intros Hw. unfold VM.f_opcode. rewrite Z.shiftr_div_pow2 by lia.
  change 0xF with (Z.ones 4). rewrite Z.land_ones by lia.
  change (2 ^ 12) with 4096. apply Z.mod_small.
  split; [apply Z.div_pos | apply Z.div_lt_upper_bound]; lia.
Qed.

Lemma reassembles_sound w addr :
  reassembles w = true ->
  exists i, readBack (Disasm.disassembleInstruction w addr) = [i] /\
            encodeInstruction ∅ i = Ok w.
Proof.
  unfold reassembles, reassemble, readBack.
  destruct (disassemble_text w addr) as [-> ->].
  destruct (Instructions _) as [|i [|]]; try discriminate.
  destruct (encodeInstruction ∅ i) as [w'| |] eqn:E; try discriminate.
  intros ->%Z.eqb_eq. by exists i.
Qed.

Lemma decodeText_unknown w :
  VM.f_opcode w = 0 \/ 4 <= VM.f_opcode w <= 11 ->
  Disasm.decodeText w =
  ("UNKNOWN_" ++ fmtX (VM.f_opcode w), "",
   "Unknown opcode: 0x" ++ fmtX (VM.f_opcode w)).
Proof.
  intros Hop. unfold Disasm.decodeText.
  change (Z.land (Z.shiftr w 12) 15) with (VM.f_opcode w).
  destruct (f_opcode_cases w) as
    [H|[H|[H|[H|[H|[H|[H|[H|[H|[H|[H|[H|[H|[H|[H|H]]]]]]]]]]]]]]];
    rewrite H in *; try lia; reflexivity.
Qed.

(** X17.  Every 16-bit word the disassembler has a case for (0x0000, and
    the opcodes of ADD, ADDI, SUB, LOADI, JMP, BEQ, BNE, with 0xFFFF read
    as HALT) is recovered from its own disassembly: the text "mnemonic
    operands" reads back as one instruction, and encoding it with an empty
    label table gives the word again, at whatever address it was
    disassembled. *)
Theorem reassemble_word w addr
  (Hw : 0 <= w < 65536) (Hdec : isDecoded w = true) :
  exists i, readBack (Disasm.disassembleInstruction w addr) = [i] /\
            encodeInstruction ∅ i = Ok w.
Proof.
  apply reassembles_sound. unfold isDecoded in Hdec.
  destruct (Z.eqb_spec w 0) as [-> | Hne]; [vm_compute; reflexivity|].
  cbn [orb] in Hdec.
  apply existsb_exists in Hdec as (c & Hc & Hcw). apply Z.eqb_eq in Hcw.
  pose proof reassemble_decoded as Hall. rewrite forallb_forall in Hall.
  specialize (Hall c Hc). unfold check_reassemble in Hall.
  apply (forall_range _ _ _ Hall).
  subst c. rewrite (f_opcode_div w Hw). Z.to_euclidean_division_equations. lia.
Qed.

Lemma reassemble_word_witness :
  exists i, readBack (Disasm.disassembleInstruction 0xE1FD 4) = [i] /\
            encodeInstruction ∅ i = Ok 0xE1FD.
Proof. apply (reassemble_word 0xE1FD 4); [lia | reflexivity]. Defined.

(** X18.  Every other 16-bit word (opcodes 0x0 other than the word
    0x0000, and 0x4 to 0xB: AND, OR, XOR, NOT, SHL, SHR, LOAD, STORE) is
    disassembled as UNKNOWN_ followed by the opcode in hexadecimal, with
    no operands, and that text does not assemble: it reads back as one
    instruction, which the encoder rejects as an unknown opcode. *)
Theorem unknown_word w addr
  (Hw : 0 <= w < 65536) (Hdec : isDecoded w = false) :
  let d := Disasm.disassembleInstruction w addr in
  Disasm.Mnemonic d = "UNKNOWN_" ++ fmtX (VM.f_opcode w) /\
  Disasm.Operands d = "" /\
  exists i, readBack d = [i] /\
    encodeInstruction ∅ i = Error ("unknown opcode: " ++ Disasm.Mnemonic d).
Proof.
  cbv zeta. unfold isDecoded in Hdec. apply orb_false_iff in Hdec as [Hne E].
  assert (Hop : VM.f_opcode w = 0 \/ 4 <= VM.f_opcode w <= 11).
  { pose proof (f_opcode_range w).
    cbn [existsb] in E. rewrite !orb_false_iff in E.
    destruct E as (E1 & E2 & E3 & E4 & E5 & E6 & E7 & _).
    apply Z.eqb_neq in E1, E2, E3, E4, E5, E6, E7. lia. }
  unfold Disasm.disassembleInstruction, readBack. rewrite Hne.
  destruct (Z.eqb_spec w 65535) as [-> | _];
    [change (VM.f_opcode 65535) with 15 in Hop; lia|].
  rewrite (decodeText_unknown _ Hop).
  cbn [Disasm.Mnemonic Disasm.Operands].
  split; [done|]. split; [done|].
  destruct (f_opcode_cases w) as
    [H|[H|[H|[H|[H|[H|[H|[H|[H|[H|[H|[H|[H|[H|[H|H]]]]]]]]]]]]]]];
    rewrite H in *; try lia;
    (eexists; split; [vm_compute; reflexivity|]; vm_compute; reflexivity).
Qed.

Lemma unknown_word_witness :
  let d := Disasm.disassembleInstruction 0x4312 6 in
  Disasm.Mnemonic d = "UNKNOWN_" ++ fmtX (VM.f_opcode 0x4312) /\
  Disasm.Operands d = "" /\
  exists i, readBack d = [i] /\
    encodeInstruction ∅ i = Error ("unknown opcode: " ++ Disasm.Mnemonic d).
Proof. apply (unknown_word 0x4312 6); [lia | reflexivity]. Defined.

End Disassembler.

(** * Assembled instructions, executed *)

Section AssembledCode.
Import GoLib Asm AsmSpec MoreSpec.
Local Open Scope string_scope.
Local Open Scope Z_scope.

Lemma fields_rrr_all :
  forallb (fun c => forallb (fun a => forallb (fun b => forallb (fun d =>
    fields_rrr_ok c a b d) (seqZ 0 16)) (seqZ 0 16)) (seqZ 0 16)) (seqZ 0 16)
  = true.
Proof. vm_compute. reflexivity. Qed.

Lemma fields_rrr c a b d :
  0 <= c < 16 -> 0 <= a < 16 -> 0 <= b < 16 -> 0 <= d < 16 ->
  VM.f_opcode (word_rrr c a b d) = c /\ VM.f_rd (word_rrr c a b d) = a /\
  VM.f_rs (word_rrr c a b d) = b /\ VM.f_rt (word_rrr c a b d) = d.
Proof.
  intros Hc Ha Hb Hd.
  pose proof (forall_range _ _ _ fields_rrr_all c ltac:(lia)) as H1. cbv beta in H1.
  pose proof (forall_range _ _ _ H1 a ltac:(lia)) as H2. cbv beta in H2.
  pose proof (forall_range _ _ _ H2 b ltac:(lia)) as H3. cbv beta in H3.
  pose proof (forall_range _ _ _ H3 d ltac:(lia)) as H4. cbv beta in H4.
  unfold fields_rrr_ok in H4. rewrite !andb_true_iff, !Z.eqb_eq in H4. tauto.
Qed.

Lemma fields_imm_all :
  forallb (fun c => forallb (fun a => forallb (fun m =>
    fields_imm_ok c a m) (seqZ 0 256)) (seqZ 0 16)) (seqZ 0 16) = true.
Proof. vm_compute. reflexivity. Qed.

Lemma fields_imm c a m :
  0 <= c < 16 -> 0 <= a < 16 -> 0 <= m < 256 ->
  VM.f_opcode (word_imm c a m) = c /\ VM.f_rd (word_imm c a m) = a /\
  VM.f_imm8 (word_imm c a m) = m.
Proof.
  intros Hc Ha Hm.
  pose proof (forall_range _ _ _ fields_imm_all c ltac:(lia)) as H1. cbv beta in H1.
  pose proof (forall_range _ _ _ H1 a ltac:(lia)) as H2. cbv beta in H2.
  pose proof (forall_range _ _ _ H2 m ltac:(lia)) as H3. cbv beta in H3.
  unfold fields_imm_ok in H3. rewrite !andb_true_iff, !Z.eqb_eq in H3. tauto.
Qed.

Lemma fields_jmp m :
  0 <= m < 4096 ->
  VM.f_opcode (Z.lor 0xD000 m) = 0xD /\ VM.f_addr12 (Z.lor 0xD000 m) = m.
Proof.
  intros Hm.
  pose proof (forall_range
    (fun m => (VM.f_opcode (Z.lor 0xD000 m) =? 0xD) &&
              (VM.f_addr12 (Z.lor 0xD000 m) =? m))
    0 4096 ltac:(vm_compute; reflexivity) m ltac:(lia)) as H.
  cbv beta in H. rewrite andb_true_iff, !Z.eqb_eq in H. exact H.
Qed.

Lemma Step_alu_word vm c a b d :
  VM.wf_vm vm -> VM.Halted vm = false ->
  1 <= c <= 9 -> c <> 2 -> c <> 7 ->
  0 <= a < 16 -> 0 <= b < 16 -> 0 <= d < 16 ->
  VM.mem vm (VM.PC vm / 2) = word_rrr c a b d ->
  VM.Registers (fst (VM.Step vm)) =
  <[0%nat := 0]>
    (<[Z.to_nat a := aluOp c (VM.reg vm b) (VM.reg vm d)]> (VM.Registers vm)).
Proof.
  intros Hwf Hrun Hc H2 H7 Ha Hb Hd Hf.
  destruct (fields_rrr c a b d) as (Fo & Frd & Frs & Frt); try lia.
  destruct (Z.eq_dec c 1) as [-> | Hne].
  - destruct (arith_step vm Hwf Hrun) as (_ & _ & Hregs & _).
    { rewrite Hf, Fo. by left. }
    cbv zeta in Hregs. rewrite Hf in Hregs. unfold VM.arith_result in Hregs.
    rewrite Fo, Frd, Frs, Frt in Hregs. exact Hregs.
  - destruct (logic_step vm Hwf Hrun) as (_ & _ & Hregs & _).
    { rewrite Hf, Fo. lia. }
    cbv zeta in Hregs. rewrite Hf in Hregs. unfold VM.logic_result in Hregs.
    rewrite Fo, Frd, Frs, Frt in Hregs. rewrite Hregs.
    assert (c = 3 \/ c = 4 \/ c = 5 \/ c = 6 \/ c = 8 \/ c = 9) as Hcs by lia.
    by repeat destruct Hcs as [-> | Hcs]; try subst c.
Qed.

(** X19.  Assembler and executor agree on the three-register
    instructions.  If ADD, SUB, AND, OR, XOR, SHL or SHR is encoded from
    operands that name registers below 16, and the machine fetches the
    encoded word, then the step writes to the first operand's register the
    operation of the mnemonic applied to the registers of the second and
    third operands (sums, differences and left shifts modulo 2^16, shift
    counts taken modulo 16), and clears R0. *)
Theorem assembled_alu_step labels instr w o0 o1 o2 vm
  (Hop : oneOf (Opcode instr) ["ADD"; "SUB"; "AND"; "OR"; "XOR"; "SHL"; "SHR"]
         = true)
  (Hrd : Operands instr !! 0%nat = Some o0)
  (Hrs : Operands instr !! 1%nat = Some o1)
  (Hrt : Operands instr !! 2%nat = Some o2)
  (Hr0 : parseRegister o0 < 16) (Hr1 : parseRegister o1 < 16)
  (Hr2 : parseRegister o2 < 16)
  (Henc : encodeInstruction labels instr = Ok w)
  (Hwf : VM.wf_vm vm) (Hrun : VM.Halted vm = false)
  (Hfetch : VM.mem vm (VM.PC vm / 2) = w) :
  VM.Registers (fst (VM.Step vm)) =
  <[0%nat := 0]>
    (<[Z.to_nat (parseRegister o0) :=
         alu (Opcode instr) (VM.reg vm (parseRegister o1))
                            (VM.reg vm (parseRegister o2))]> (VM.Registers vm)).
Proof.
  pose proof (parseRegister_range o0) as R0.
  pose proof (parseRegister_range o1) as R1.
  pose proof (parseRegister_range o2) as R2.
  mnemonic_cases Hop;
    match goal with
    | H : Opcode instr = ?m |- _ =>
        let c := eval vm_compute in (default 0 (Opcodes !! m)) in
        rewrite (encode_rrr _ _ c) in Henc by (rewrite H; in_list);
        rewrite (operand_Some _ _ _ Hrd), (operand_Some _ _ _ Hrs),
          (operand_Some _ _ _ Hrt) in Henc;
        injection Henc as <-; rewrite H;
        rewrite (Step_alu_word vm c (parseRegister o0) (parseRegister o1)
                   (parseRegister o2)) by first [assumption | reflexivity | lia]
    end; reflexivity.
Qed.

Lemma assembled_alu_step_witness :
  let instr := mkInstruction "" "AND" ["R3"; "R1"; "R2"] 4 in
  let vm := VM.run 2 and_regs in
  VM.Registers (fst (VM.Step vm)) =
  <[0%nat := 0]>
    (<[Z.to_nat (parseRegister "R3") :=
         alu (Opcode instr) (VM.reg vm (parseRegister "R1"))
                            (VM.reg vm (parseRegister "R2"))]> (VM.Registers vm)).
Proof.
  cbv zeta.
  apply (assembled_alu_step ∅ (mkInstruction "" "AND" ["R3"; "R1"; "R2"] 4)
           0x4312 "R3" "R1" "R2");
    [vm_compute; reflexivity | reflexivity | reflexivity | reflexivity
    | vm_compute; reflexivity | vm_compute; reflexivity
    | vm_compute; reflexivity | vm_compute; reflexivity
    | wf_by_compute | vm_compute; reflexivity | vm_compute; reflexivity].
Defined.

(** ** Immediates *)

Lemma sign_extend_imm8 v :
  0 <= v < 256 ->
  (if Z.land v 0x80 =? 0 then v else Z.lor v 0xFF00) = u16 (int8 v).
Proof.
  intros H. apply Z.eqb_eq. revert v H.
  apply (forall_range
           (fun v => (if Z.land v 0x80 =? 0 then v else Z.lor v 0xFF00)
                     =? u16 (int8 v))
           0 256).
  vm_compute. reflexivity.
Qed.

Lemma execute_LOADI i vm :
  VM.f_opcode i = 0xC ->
  VM.execute i vm =
  (VM.set_reg 0 0 (VM.set_reg (VM.f_rd i) (u16 (int8 (VM.f_imm8 i))) vm), None).
Proof.
  intros Hop. unfold VM.execute. rewrite Hop. cbv beta iota zeta.
  by rewrite (sign_extend_imm8 _ (f_imm8_range i)).
Qed.

Lemma land_0xFF_u8 v : u16 (Z.land v 0xFF) = u8 v.
Proof.
  pose proof (land_0xFF v). rewrite u16_id by (unfold VM.is_u16; lia).
  change 0xFF with (Z.ones 8). by rewrite Z.land_ones by lia.
Qed.

Lemma u8_range v : 0 <= u8 v < 256.
Proof. unfold u8. apply Z.mod_pos_bound. lia. Qed.

Lemma int8_u8 v : int8 (u8 v) = int8 v.
Proof. unfold int8, u8. by rewrite Z.mod_mod by lia. Qed.

(** X20.  Assembler and executor treat the immediate of LOADI and ADDI
    differently.  If LOADI or ADDI is encoded from a register operand that
    names a register below 16 and an immediate operand that
    [parseImmediate] reads as v, and a running machine fetches the encoded
    word, the step works on the low 8 bits of v: LOADI writes them
    sign-extended to the register (the signed byte of v, modulo 2^16) and
    ADDI adds them zero-extended to it (v mod 256, never a negative
    amount, the sum modulo 2^16); both clear R0. *)
Theorem assembled_immediate_step labels instr w o0 o1 vm
  (Hop : Opcode instr = "LOADI" \/ Opcode instr = "ADDI")
  (Hrd : Operands instr !! 0%nat = Some o0)
  (Himm : Operands instr !! 1%nat = Some o1)
  (Hr0 : parseRegister o0 < 16)
  (Henc : encodeInstruction labels instr = Ok w)
  (Hwf : VM.wf_vm vm) (Hrun : VM.Halted vm = false)
  (Hfetch : VM.mem vm (VM.PC vm / 2) = w) :
  let r := parseRegister o0 in
  let v := parseImmediate o1 in
  VM.Registers (fst (VM.Step vm)) =
  <[0%nat := 0]>
    (<[Z.to_nat r :=
         if String.eqb (Opcode instr) "LOADI" then u16 (int8 v)
         else u16 (VM.reg vm r + u8 v)]> (VM.Registers vm)).
Proof.
  cbv zeta. pose proof (parseRegister_range o0) as R0.
  pose proof (u8_range (parseImmediate o1)) as Rv.
  destruct Hop as [Hop | Hop]; rewrite Hop; simpl String.eqb; cbv iota.
  - rewrite (encode_ri _ _ 0xC) in Henc by (rewrite Hop; in_list).
    rewrite (operand_Some _ _ _ Hrd), (operand_Some _ _ _ Himm) in Henc.
    injection Henc as <-. rewrite land_0xFF_u8 in Hfetch.
    destruct (fields_imm 0xC (parseRegister o0) (u8 (parseImmediate o1)))
      as (Fo & Frd & Fimm); try lia.
    unfold word_imm in *.
    rewrite (Step_running _ Hwf Hrun), Hfetch, execute_LOADI by done.
    cbn [fst]. rewrite Frd, Fimm, int8_u8. reflexivity.
  - rewrite (encode_ri _ _ 0x2) in Henc by (rewrite Hop; in_list).
    rewrite (operand_Some _ _ _ Hrd), (operand_Some _ _ _ Himm) in Henc.
    injection Henc as <-. rewrite land_0xFF_u8 in Hfetch.
    destruct (fields_imm 0x2 (parseRegister o0) (u8 (parseImmediate o1)))
      as (Fo & Frd & Fimm); try lia.
    unfold word_imm in *.
    destruct (arith_step vm Hwf Hrun) as (_ & _ & Hregs & _).
    { rewrite Hfetch, Fo. by right. }
    cbv zeta in Hregs. rewrite Hfetch in Hregs. unfold VM.arith_result in Hregs.
    rewrite Fo, Frd, Fimm in Hregs. exact Hregs.
Qed.

Lemma assembled_immediate_step_witness :
  let instr := mkInstruction "" "LOADI" ["R1"; "-1"] 0 in
  let vm := VM.load loadi_minus_one in
  let r := parseRegister "R1" in
  let v := parseImmediate "-1" in
  VM.Registers (fst (VM.Step vm)) =
  <[0%nat := 0]>
    (<[Z.to_nat r :=
         if String.eqb (Opcode instr) "LOADI" then u16 (int8 v)
         else u16 (VM.reg vm r + u8 v)]> (VM.Registers vm)).
Proof.
  cbv zeta.
  apply (assembled_immediate_step ∅ (mkInstruction "" "LOADI" ["R1"; "-1"] 0)
           0xC1FF "R1" "-1");
    [left; reflexivity | reflexivity | reflexivity
    | vm_compute; reflexivity | vm_compute; reflexivity
    | wf_by_compute | vm_compute; reflexivity | vm_compute; reflexivity].
Defined.

(** ** Jumps and branches to labels *)

(** X21.  A JMP to a defined label, once encoded and fetched, sets PC to
    the label's address modulo 4096: the jump reaches the label exactly
    when the label lies in the first 4096 bytes. *)
Theorem assembled_JMP_lands labels instr w o0 target vm
  (Hop : Opcode instr = "JMP")
  (Hops : Operands instr !! 0%nat = Some o0)
  (Hlabel : labels !! o0 = Some target)
  (Henc : encodeInstruction labels instr = Ok w)
  (Hwf : VM.wf_vm vm) (Hrun : VM.Halted vm = false)
  (Hfetch : VM.mem vm (VM.PC vm / 2) = w) :
  VM.PC (fst (VM.Step vm)) = target mod 4096.
Proof.
  rewrite (encode_JMP _ _ Hop), (operand_Some _ _ _ Hops) in Henc.
  simpl in Henc. rewrite Hlabel in Henc. injection Henc as <-.
  pose proof (land_0xFFF target) as Ht.
  destruct (fields_jmp _ Ht) as [Fo Fa].
  rewrite (Step_running _ Hwf Hrun), Hfetch.
  unfold VM.execute. rewrite Fo. cbv beta iota zeta. cbn [fst VM.PC VM.set_PC].
  rewrite Fa. change 0xFFF with (Z.ones 12). by rewrite Z.land_ones by lia.
Qed.

Lemma assembled_JMP_lands_witness :
  VM.PC (fst (VM.Step (VM.load jump_over))) = 4 mod 4096.
Proof.
  apply (assembled_JMP_lands (<["end" := 4]> ∅)
           (mkInstruction "" "JMP" ["end"] 0) 0xD004 "end");
    [reflexivity | reflexivity | vm_compute; reflexivity
    | vm_compute; reflexivity | wf_by_compute
    | vm_compute; reflexivity | vm_compute; reflexivity].
Defined.

Lemma quot2_even x : x mod 2 = 0 -> 2 * Z.quot x 2 = x.
Proof. intros H. Z.to_euclidean_division_equations. lia. Qed.

(** X22.  A BEQ or BNE whose register operand names a register below 16
    and whose target operand is a label of the label table, at an address
    below 2^16, encoded at its own address and fetched there by a running
    machine, lands on the label when it is taken and on the next
    instruction when it is not, provided the label is an even number of
    bytes away and between 256 bytes before and 254 bytes after the next
    instruction, and the encoded word is not 0xFFFF (which the executor
    reads as HALT).  BEQ is taken iff the register is zero, BNE iff it is
    not. *)
Theorem assembled_branch_lands labels instr w o0 o1 target vm
  (Hop : Opcode instr = "BEQ" \/ Opcode instr = "BNE")
  (Hrc : Operands instr !! 0%nat = Some o0)
  (Htarget : Operands instr !! 1%nat = Some o1)
  (Hlabel : labels !! o1 = Some target)
  (Hr0 : parseRegister o0 < 16)
  (Ht : VM.is_u16 target)
  (Heven : (target - Asm.Address instr) mod 2 = 0)
  (Hfit : -256 <= target - (Asm.Address instr + 2) <= 254)
  (Henc : encodeInstruction labels instr = Ok w) (Hw : w <> 0xFFFF)
  (Hwf : VM.wf_vm vm) (Hrun : VM.Halted vm = false)
  (Hpc : VM.PC vm = Asm.Address instr)
  (Hfetch : VM.mem vm (VM.PC vm / 2) = w) :
  let zero := VM.reg vm (parseRegister o0) =? 0 in
  VM.PC (fst (VM.Step vm)) =
  if (if String.eqb (Opcode instr) "BEQ" then zero else negb zero)
  then target else u16 (Asm.Address instr + 2).
Proof.
  cbv zeta. pose proof (parseRegister_range o0) as R0.
  pose proof (VM.wf_PC _ Hwf) as Hpc16. rewrite Hpc in Hpc16. unfold VM.is_u16 in *.
  set (off := branchOffset target (Asm.Address instr)).
  assert (Hoff : off = Z.quot (target - (Asm.Address instr + 2)) 2).
  { apply branchOffset_exact. lia. }
  assert (H2off : 2 * off = target - (Asm.Address instr + 2)).
  { rewrite Hoff. apply quot2_even.
    revert Heven. Z.to_euclidean_division_equations. lia. }
  assert (Hrange : -128 <= off <= 127) by lia.
  pose proof (land_0xFF (u16 off)) as Hm.
  assert (Hw' : exists c, (c = 0xE \/ c = 0xF) /\
            (c =? 0xE) = String.eqb (Opcode instr) "BEQ" /\
            w = word_imm c (parseRegister o0) (Z.land (u16 off) 0xFF)).
  { destruct Hop as [Hop | Hop].
    - rewrite (encode_branch _ _ 0xE) in Henc by (rewrite Hop; in_list).
      rewrite (operand_Some _ _ _ Hrc), (operand_Some _ _ _ Htarget) in Henc.
      simpl in Henc. rewrite Hlabel in Henc. injection Henc as <-.
      rewrite Hop. exists 0xE. split; [by left|]. split; reflexivity.
    - rewrite (encode_branch _ _ 0xF) in Henc by (rewrite Hop; in_list).
      rewrite (operand_Some _ _ _ Hrc), (operand_Some _ _ _ Htarget) in Henc.
      simpl in Henc. rewrite Hlabel in Henc. injection Henc as <-.
      rewrite Hop. exists 0xF. split; [by right|]. split; reflexivity. }
  destruct Hw' as (c & Hc & Hceq & ->). rewrite <- Hceq.
  destruct (fields_imm c (parseRegister o0) (Z.land (u16 off) 0xFF))
    as (Fo & Frd & Fimm); try lia.
  rewrite (Step_running _ Hwf Hrun), Hfetch.
  rewrite execute_branch by (rewrite Fo; destruct Hc; [left | right]; done).
  rewrite Fo, Frd, Fimm.
  rewrite <- (signedOffset_int8 _ Hm), signedOffset_low8 by done.
  change (VM.reg (VM.set_CycleCount _ (VM.set_PC _ vm)) ?r) with (VM.reg vm r).
  destruct (if c =? 14 then _ else _); cbn [fst VM.PC VM.set_PC VM.set_CycleCount];
    rewrite Hpc; [|done].
  rewrite u16_add_l.
  replace (Asm.Address instr + 2 + 2 * off) with target by lia.
  by apply u16_id.
Qed.

Lemma assembled_branch_lands_witness :
  let instr := mkInstruction "" "BEQ" ["R1"; "skip"] 2 in
  let vm := VM.run 1 forward_branch_code in
  let zero := VM.reg vm (parseRegister "R1") =? 0 in
  VM.PC (fst (VM.Step vm)) =
  if (if String.eqb (Opcode instr) "BEQ" then zero else negb zero)
  then 6 else u16 (Asm.Address instr + 2).
Proof.
  cbv zeta.
  apply (assembled_branch_lands (<["skip" := 6]> ∅)
           (mkInstruction "" "BEQ" ["R1"; "skip"] 2) 0xE101 "R1" "skip" 6);
    [left; reflexivity | reflexivity | reflexivity | vm_compute; reflexivity
    | vm_compute; reflexivity | unfold VM.is_u16; lia | reflexivity
    | cbn [Asm.Address]; lia | vm_compute; reflexivity | lia
    | wf_by_compute | vm_compute; reflexivity | vm_compute; reflexivity
    | vm_compute; reflexivity].
Defined.

End AssembledCode.
